(** * bootupchecks.js: the pre-launch checks of rbxAdminServer

    A shallow embedding of the two scripts of the repository

      - the merged script (dependency stage, port stage, one shared
        readline interface), and
      - [src/bootupchecks.js], the earlier script (dependency stage only,
        one readline interface per question), in [Module Legacy],

    together with the part of the JavaScript and Node.js semantics that the
    scripts rely on: number coercion, [parseInt], truthiness,
    [JSON.stringify], and a model of the console, the file system, the
    package manager and the TCP stack as an explicit world. *)

From Stdlib Require Import ZArith QArith Bool List String Ascii Lia.
Import ListNotations.

Local Set Warnings "-register-all".
Local Open Scope string_scope.
Local Open Scope Z_scope.

(** ** Strings

    A JavaScript string is a sequence of UTF-16 code units.  The model uses
    Rocq strings, whose characters are read as the code units U+0000 to
    U+00FF; inputs outside that range are not covered. *)

Definition code (c : ascii) : Z := Z.of_N (N_of_ascii c).

Definition unit_of (n : Z) : ascii := ascii_of_N (Z.to_N n).

(** WhiteSpace and LineTerminator code units below U+0100: TAB, LF, VT, FF,
    CR, SP and NBSP.  [String.prototype.trim], [parseInt] and the
    string-to-number conversion all strip this set. *)
Definition is_ws (c : ascii) : bool :=
  let n := code c in
  ((9 <=? n) && (n <=? 13)) || (n =? 32) || (n =? 160).

Fixpoint trimStart (s : string) : string :=
  match s with
  | String c r => if is_ws c then trimStart r else s
  | EmptyString => EmptyString
  end.

Definition is_empty (s : string) : bool :=
  match s with EmptyString => true | String _ _ => false end.

Fixpoint trimEnd (s : string) : string :=
  match s with
  | String c r =>
      let r' := trimEnd r in
      if is_ws c && is_empty r' then EmptyString else String c r'
  | EmptyString => EmptyString
  end.

(** [String.prototype.trim]. *)
Definition trim (s : string) : string := trimEnd (trimStart s).

(** Lower-casing of one code unit: A-Z, and the Latin-1 capitals U+00C0 to
    U+00DE except the multiplication sign U+00D7. *)
Definition lower_unit (c : ascii) : ascii :=
  let n := code c in
  if ((65 <=? n) && (n <=? 90))
     || ((192 <=? n) && (n <=? 222) && negb (n =? 215))
  then unit_of (n + 32) else c.

(** [String.prototype.toLowerCase]. *)
Fixpoint toLowerCase (s : string) : string :=
  match s with
  | String c r => String (lower_unit c) (toLowerCase r)
  | EmptyString => EmptyString
  end.

(** The double quote, for the texts that contain one. *)
Definition dq : string := String "034"%char EmptyString.

(** ** Numbers

    A JavaScript number is an IEEE 754 binary64 value.  A finite one is
    represented by the rational it denotes (the two zeros are not told
    apart: no operation of the scripts distinguishes them). *)

Inductive Number :=
| NaN
| Infinity (negative : bool)
| Finite (q : Q).

Definition of_Z (z : Z) : Number := Finite (inject_Z z).

Definition negate (x : Number) : Number :=
  match x with
  | NaN => NaN
  | Infinity s => Infinity (negb s)
  | Finite q => Finite (Qred (Qopp q))
  end.

(** [n / d] rounded to an integer, ties to even ([0 <= n], [0 < d]). *)
Definition round_half_even (n d : Z) : Z :=
  let f := n / d in
  match 2 * (n mod d) ?= d with
  | Lt => f
  | Gt => f + 1
  | Eq => if Z.even f then f else f + 1
  end.

(** The fraction [(n / d) / 2 ^ e]. *)
Definition scaled (n d e : Z) : Z * Z :=
  if 0 <=? e then (n, d * 2 ^ e) else (n * 2 ^ (- e), d).

(** The binary64 value nearest to the positive rational [n / d], ties to
    even: a 53-bit significand [m] and an exponent [e >= -1074] with value
    [m * 2 ^ e]; overflow gives infinity. *)
Definition binary64_of_pos (n d : positive) : Number :=
  let e0 := Z.log2 (Zpos n) - Z.log2 (Zpos d) - 52 in
  let '(a, b) := scaled (Zpos n) (Zpos d) e0 in
  let e := Z.max (if b * 2 ^ 52 <=? a then e0 else e0 - 1) (-1074) in
  let '(a', b') := scaled (Zpos n) (Zpos d) e in
  let m := round_half_even a' b' in
  if (971 <? e) || ((e =? 971) && (m =? 2 ^ 53)) then Infinity false
  else if 0 <=? e then Finite (inject_Z (m * 2 ^ e))
  else Finite (Qred (Qmake m (Z.to_pos (2 ^ (- e))))).

(** Rounding of a mathematical value to a number. *)
Definition round_double (q : Q) : Number :=
  match Qnum q with
  | Z0 => Finite 0
  | Zpos n => binary64_of_pos n (Qden q)
  | Zneg n => negate (binary64_of_pos n (Qden q))
  end.

(** The relational comparison [x < y] of two numbers: [None] is the
    `undefined` that a NaN operand produces. *)
Definition number_lt (x y : Number) : option bool :=
  match x, y with
  | NaN, _ | _, NaN => None
  | Infinity true, Infinity true => Some false
  | Infinity true, _ => Some true
  | _, Infinity true => Some false
  | Infinity false, _ => Some false
  | _, Infinity false => Some true
  | Finite p, Finite q => Some (negb (Qle_bool q p))
  end.

(** ** Numerals *)

Definition digit_in (radix : Z) (c : ascii) : option Z :=
  let n := code c in
  let v :=
    if (48 <=? n) && (n <=? 57) then n - 48
    else if (97 <=? n) && (n <=? 122) then n - 87
    else if (65 <=? n) && (n <=? 90) then n - 55
    else 36 in
  if v <? radix then Some v else None.

(** The longest prefix of [s] made of digits of the radix, and the rest. *)
Fixpoint digits_prefix (radix : Z) (s : string) : list Z * string :=
  match s with
  | String c r =>
      match digit_in radix c with
      | Some v => let '(ds, rest) := digits_prefix radix r in (v :: ds, rest)
      | None => ([], s)
      end
  | EmptyString => ([], EmptyString)
  end.

Definition digits_value (radix : Z) (ds : list Z) : Z :=
  fold_left (fun acc v => radix * acc + v) ds 0.

(** An optional sign: [true] for a leading minus. *)
Definition sign_prefix (s : string) : bool * string :=
  match s with
  | String c r =>
      if code c =? 45 then (true, r)
      else if code c =? 43 then (false, r)
      else (false, s)
  | EmptyString => (false, s)
  end.

Definition signed (negative : bool) (x : Number) : Number :=
  if negative then negate x else x.

(** [parseInt(string, 10)] on a string: leading white space is skipped, a
    sign is read, then the longest prefix of decimal digits; what follows
    the digits is ignored, and no digit at all gives NaN.  (The radix is
    given as 10, so a 0x prefix is not recognised.) *)
Definition parseInt (input : string) : Number :=
  let '(negative, s) := sign_prefix (trimStart input) in
  match digits_prefix 10 s with
  | ([], _) => NaN
  | (ds, _) => signed negative (round_double (inject_Z (digits_value 10 ds)))
  end.

(** The exponent part of a decimal literal: nothing, or e/E, an optional
    sign and at least one digit, up to the end of the string. *)
Definition exponent_part (s : string) : option Z :=
  match s with
  | EmptyString => Some 0
  | String c r =>
      if (code c =? 101) || (code c =? 69) then
        let '(negative, r') := sign_prefix r in
        match digits_prefix 10 r' with
        | ((_ :: _) as ds, EmptyString) =>
            Some (if negative then - digits_value 10 ds else digits_value 10 ds)
        | _ => None
        end
      else None
  end.

Definition pow10 (k : Z) : Q :=
  if 0 <=? k then inject_Z (10 ^ k) else Qmake 1 (Z.to_pos (10 ^ (- k))).

(** StrUnsignedDecimalLiteral: [Infinity], or digits with an optional
    fraction and an optional exponent, one of the two digit runs being
    non-empty. *)
Definition unsigned_decimal (s : string) : Number :=
  if String.eqb s "Infinity" then Infinity false
  else
    let '(ip, r1) := digits_prefix 10 s in
    let '(fp, r2) :=
      match r1 with
      | String c r => if code c =? 46 then digits_prefix 10 r else ([], r1)
      | EmptyString => ([], r1)
      end in
    match (ip ++ fp)%list, exponent_part r2 with
    | (_ :: _) as ds, Some e =>
        round_double
          (Qmult (inject_Z (digits_value 10 ds))
                 (pow10 (e - Z.of_nat (List.length fp))))
    | _, _ => NaN
    end.

(** NonDecimalIntegerLiteral: 0x, 0o or 0b (either case) followed by digits
    of that radix only. *)
Definition non_decimal (s : string) : option Number :=
  match s with
  | String zero (String c r) =>
      let n := code c in
      let radix :=
        if (n =? 120) || (n =? 88) then 16
        else if (n =? 111) || (n =? 79) then 8
        else if (n =? 98) || (n =? 66) then 2
        else 0 in
      if (code zero =? 48) && negb (radix =? 0) then
        match digits_prefix radix r with
        | ((_ :: _) as ds, EmptyString) =>
            Some (round_double (inject_Z (digits_value radix ds)))
        | _ => Some NaN
        end
      else None
  | _ => None
  end.

(** The conversion of a string to a number (StringToNumber): the trimmed
    text is empty (zero), a non-decimal integer literal, or a signed
    decimal literal; anything else is NaN. *)
Definition StringToNumber (s : string) : Number :=
  let t := trim s in
  if is_empty t then Finite 0
  else
    match non_decimal t with
    | Some x => x
    | None =>
        let '(negative, u) := sign_prefix t in
        signed negative (unsigned_decimal u)
    end.

(** ** Values

    The values the scripts handle: what [JSON.parse] produces, and
    `undefined` for an absent property.  An object lists its own properties
    in enumeration order. *)

Inductive Value :=
| Undefined
| Null
| Bool (b : bool)
| Num (n : Number)
| Str (s : string)
| Arr (items : list Value)
| Obj (fields : list (string * Value)).

(** A thrown exception, with its [message]. *)
Inductive Exn := Error (message : string).

Definition message (e : Exn) : string := let 'Error m := e in m.

(** The result of an expression that can throw. *)
Inductive Result (A : Type) :=
| Ok (a : A)
| Raise (e : Exn).

Arguments Ok {A} a.
Arguments Raise {A} e.

Definition and_then {A B} (r : Result A) (k : A -> Result B) : Result B :=
  match r with
  | Ok a => k a
  | Raise e => Raise e
  end.

(** Own property lookup in an object's property list. *)
Fixpoint lookup (key : string) (fields : list (string * Value))
  : option Value :=
  match fields with
  | (k, v) :: rest => if String.eqb k key then Some v else lookup key rest
  | [] => None
  end.

(** [ToBoolean]: the falsy values are undefined, null, false, zero, NaN and
    the empty string. *)
Definition ToBoolean (v : Value) : bool :=
  match v with
  | Undefined | Null => false
  | Bool b => b
  | Num NaN => false
  | Num (Infinity _) => true
  | Num (Finite q) => negb (Qeq_bool q 0)
  | Str s => negb (is_empty s)
  | Arr _ | Obj _ => true
  end.

(** Whether [ToString] of a value returns.  A parsed object converts through
    the inherited [Object.prototype.toString], unless an own property named
    toString (a JSON value, never callable) hides it: then neither
    conversion method yields a primitive and a TypeError is thrown.  An
    array converts by joining the conversions of its elements. *)
Fixpoint convertible (v : Value) : bool :=
  match v with
  | Obj fields =>
      match lookup "toString" fields with Some _ => false | None => true end
  | Arr items => forallb convertible items
  | _ => true
  end.

Definition not_primitive : Exn :=
  Error "Cannot convert object to primitive value".

(** [ToNumber].  For an object the primitive is the text [object Object],
    not a numeral.  For an array it is the join of its elements with
    commas: empty for no element; for one element that element's own text
    (empty for null and undefined, and a number's text reads back as that
    number); and a text with a comma, not a numeral, for more. *)
Fixpoint ToNumber (v : Value) : Result Number :=
  match v with
  | Undefined => Ok NaN
  | Null => Ok (Finite 0)
  | Bool b => Ok (Finite (if b then 1 else 0))
  | Num n => Ok n
  | Str s => Ok (StringToNumber s)
  | Obj _ => if convertible v then Ok NaN else Raise not_primitive
  | Arr items =>
      if forallb convertible items then
        match items with
        | [] => Ok (Finite 0)
        | [Undefined] | [Null] => Ok (Finite 0)
        | [Bool _] | [Obj _] => Ok NaN
        | [(Num _ | Str _ | Arr _) as item] => ToNumber item
        | _ :: _ :: _ => Ok NaN
        end
      else Raise not_primitive
  end.

(** [port >= k] and [port <= k] for a number [k]: the negation of [<] with
    the operands in order, false when the comparison is undefined. *)
Definition ge (port : Value) (k : Number) : Result bool :=
  and_then (ToNumber port) (fun n =>
  Ok (match number_lt n k with Some false => true | _ => false end)).

Definition le (port : Value) (k : Number) : Result bool :=
  and_then (ToNumber port) (fun n =>
  Ok (match number_lt k n with Some false => true | _ => false end)).

(** [const isPortValid = (port) => port >= 1 && port <= 65535;] *)
Definition isPortValid (port : Value) : Result bool :=
  and_then (ge port (of_Z 1)) (fun lower =>
  if lower then le port (of_Z 65535) else Ok false).

(** [config.port]: reading a property of null throws, a primitive or an
    array has no such property. *)
Definition get_port (config : Value) : Result Value :=
  match config with
  | Null => Raise (Error "Cannot read properties of null (reading 'port')")
  | Undefined =>
      Raise (Error "Cannot read properties of undefined (reading 'port')")
  | Obj fields =>
      Ok (match lookup "port" fields with Some v => v | None => Undefined end)
  | _ => Ok Undefined
  end.

(** Assignment to an own property: replaced in place when present, added
    last when not. *)
Fixpoint assign (key : string) (v : Value) (fields : list (string * Value))
  : list (string * Value) :=
  match fields with
  | (k, old) :: rest =>
      if String.eqb k key then (k, v) :: rest
      else (k, old) :: assign key v rest
  | [] => [(key, v)]
  end.

(** [config.port = newPort], reached only after [config.port] was read.
    The script is not in strict mode, so the assignment to a primitive is
    ignored; on an array it adds a property that is not an element, which
    nothing reads afterwards (JSON.stringify writes elements only). *)
Definition set_port (config : Value) (newPort : Value) : Value :=
  match config with
  | Obj fields => Obj (assign "port" newPort fields)
  | _ => config
  end.

(** ** JSON.stringify *)

Definition newline : string := String "010"%char EmptyString.

Definition hex_unit (n : Z) : ascii :=
  if n <? 10 then unit_of (48 + n) else unit_of (87 + n).

(** The escape of one code unit inside a JSON string. *)
Definition quote_unit (c : ascii) : string :=
  let n := code c in
  if n =? 8 then "\b"
  else if n =? 9 then "\t"
  else if n =? 10 then "\n"
  else if n =? 12 then "\f"
  else if n =? 13 then "\r"
  else if n =? 34 then "\" ++ dq
  else if n =? 92 then "\\"
  else if n <? 32 then
    "\u00"
      ++ String (hex_unit (n / 16)) (String (hex_unit (n mod 16)) EmptyString)
  else String c EmptyString.

Fixpoint quote_units (s : string) : string :=
  match s with
  | String c r => quote_unit c ++ quote_units r
  | EmptyString => EmptyString
  end.

(** QuoteJSONString. *)
Definition quote (s : string) : string := dq ++ quote_units s ++ dq.

Fixpoint join (separator : string) (parts : list string) : string :=
  match parts with
  | [] => EmptyString
  | [p] => p
  | p :: rest => p ++ separator ++ join separator rest
  end.

Fixpoint spaces (n : nat) : string :=
  match n with
  | O => EmptyString
  | S k => String " "%char (spaces k)
  end.

Section Stringify.

(** The text of a finite number ([Number::toString], the shortest decimal
    that reads back as the number): not modelled, the development holds
    for any. *)
Variable number_text : Q -> string.

(** The layout of a non-empty array or object whose members are already
    serialized, at indentation [indent], between [opening] and
    [closing]. *)
Definition layout (gap indent opening closing : string) (parts : list string)
  : string :=
  match parts with
  | [] => opening ++ closing
  | _ =>
      if is_empty gap then opening ++ join "," parts ++ closing
      else
        let inner := indent ++ gap in
        opening ++ newline ++ inner
          ++ join ("," ++ newline ++ inner) parts
          ++ newline ++ indent ++ closing
  end.

(** SerializeJSONProperty: [None] is `undefined`, for a value that JSON
    leaves out.  A member of an object is left out when its value is; an
    element of an array is written null. *)
Fixpoint serialize (gap indent : string) (v : Value) : option string :=
  match v with
  | Undefined => None
  | Null => Some "null"
  | Bool b => Some (if b then "true" else "false")
  | Num (Finite q) => Some (number_text q)
  | Num _ => Some "null"
  | Str s => Some (quote s)
  | Arr items =>
      Some (layout gap indent "[" "]"
        (map (fun item =>
                match serialize gap (indent ++ gap) item with
                | Some text => text
                | None => "null"
                end) items))
  | Obj fields =>
      Some (layout gap indent "{" "}"
        (flat_map (fun '(key, item) =>
                match serialize gap (indent ++ gap) item with
                | Some text =>
                    [quote key ++ ":"
                       ++ (if is_empty gap then EmptyString else " ")
                       ++ text]
                | None => []
                end) fields))
  end.

(** [JSON.stringify(value, null, space)] for a number [space]: the gap is
    that many spaces, ten at most. *)
Definition JSON_stringify (value : Value) (space : nat) : option string :=
  serialize (spaces (Nat.min space 10)) EmptyString value.

End Stringify.

(** ** The world

    What the scripts act on: the operator at the terminal, the module
    resolver, the package manager, the file system and the TCP stack; and
    what they emit, as a trace. *)

(** The console texts, one constructor per [console.log] or [console.error]
    of the scripts, with the values its template interpolates. *)
Inductive Message :=
| Installing (dep : string)
    (* Installing "<dep>"... *)
| Installed (dep : string)
    (* "<dep>" installed successfully! *)
| InstallFailed (dep reason : string)
    (* Failed to install "<dep>". Error: <reason> *)
| NotInstalledHeader
    (* The following dependencies were not installed: *)
| DeclinedList (deps : list string)
    (* the declined names, one per line *)
| ManualHeader
    (* You can install them manually with the following commands: *)
| ManualCommand (dep : string)
    (* npm install <dep> *)
| AllInstalled
    (* All dependencies are installed! *)
| ConfigReadFailed (reason : string)
    (* Failed to read config.json: <reason> *)
| PortInvalidOrInUse (port : Value)
    (* The port "<port>" is invalid or in use. *)
| InvalidPort
    (* Invalid port. Please enter a number between 1 and 65535. *)
| PortInUse
    (* Port is already in use. Try a different one. *)
| PortUpdated (newPort : Value)
    (* Port has been updated to <newPort> and saved in config.json. *)
| PortOk (port : Value).
    (* The current port (<port>) is valid and available. *)

Inductive Event :=
| CreateInterface                       (* readline.createInterface *)
| CloseInterface                        (* rl.close *)
| Question (text : string)              (* rl.question *)
| Log (m : Message)                     (* console.log *)
| LogError (m : Message)                (* console.error *)
| Exec (command : string)               (* execSync *)
| Listening (time : nat) (port : Z)     (* the server is bound and listens *)
| BindFailed (time : nat) (port : Z)    (* the server emits an error *)
| Closed (port : Z)                     (* the server is closed *)
| Written (path text : string).         (* fs.writeFileSync *)

Record World := mkWorld {
  (** the lines the operator will type, one per question *)
  stdin : list string;
  (** whether [require.resolve] finds a package *)
  resolvable : string -> bool;
  (** the failure of a shell command, if it fails *)
  npm : string -> option string;
  (** the text files, by path *)
  files : string -> option string;
  (** the failure of a write to a path, if it fails *)
  write_error : string -> option string;
  (** the number of bind attempts made so far *)
  clock : nat;
  (** the ports held by other processes, at each bind attempt *)
  bound_elsewhere : nat -> Z -> bool;
  (** the ports whose bind fails for another reason, at each attempt *)
  bind_refused : nat -> Z -> bool;
  (** the ports on which this process has a listening server *)
  sockets : list Z;
  (** what was emitted so far, oldest first *)
  trace : list Event
}.

Definition with_stdin (lines : list string) (w : World) : World :=
  mkWorld lines (resolvable w) (npm w) (files w) (write_error w) (clock w)
    (bound_elsewhere w) (bind_refused w) (sockets w) (trace w).

Definition with_files (fs : string -> option string) (w : World) : World :=
  mkWorld (stdin w) (resolvable w) (npm w) fs (write_error w) (clock w)
    (bound_elsewhere w) (bind_refused w) (sockets w) (trace w).

Definition with_clock (t : nat) (w : World) : World :=
  mkWorld (stdin w) (resolvable w) (npm w) (files w) (write_error w) t
    (bound_elsewhere w) (bind_refused w) (sockets w) (trace w).

Definition with_sockets (held : list Z) (w : World) : World :=
  mkWorld (stdin w) (resolvable w) (npm w) (files w) (write_error w) (clock w)
    (bound_elsewhere w) (bind_refused w) held (trace w).

Definition with_trace (events : list Event) (w : World) : World :=
  mkWorld (stdin w) (resolvable w) (npm w) (files w) (write_error w) (clock w)
    (bound_elsewhere w) (bind_refused w) (sockets w) events.

Definition note (e : Event) (w : World) : World :=
  with_trace (trace w ++ [e])%list w.

(** ** Computations

    A run returns, throws, or is blocked on an answer that never comes (the
    operator's lines are exhausted); `await` is sequencing. *)

Inductive Outcome (A : Type) :=
| Done (a : A)
| Thrown (e : Exn)
| Blocked.

Arguments Done {A} a.
Arguments Thrown {A} e.
Arguments Blocked {A}.

Definition M (A : Type) : Type := World -> Outcome A * World.

Definition ret {A} (a : A) : M A := fun w => (Done a, w).

Definition bind {A B} (m : M A) (k : A -> M B) : M B :=
  fun w =>
    match m w with
    | (Done a, w') => k a w'
    | (Thrown e, w') => (Thrown e, w')
    | (Blocked, w') => (Blocked, w')
    end.

Definition throw {A} (e : Exn) : M A := fun w => (Thrown e, w).

Definition lift {A} (r : Result A) : M A :=
  match r with
  | Ok a => ret a
  | Raise e => throw e
  end.

(** [try { body } catch (error) { handler }] *)
Definition try_catch {A} (body : M A) (handler : Exn -> M A) : M A :=
  fun w =>
    match body w with
    | (Thrown e, w') => handler e w'
    | r => r
    end.

Declare Scope js_scope.
Delimit Scope js_scope with js.
Notation "x <- m ;; k" := (bind m (fun x => k))
  (at level 61, m at next level, right associativity) : js_scope.
Notation "m ;; k" := (bind m (fun _ => k))
  (at level 61, right associativity) : js_scope.
Local Open Scope js_scope.

Definition emit (e : Event) : M unit := fun w => (Done tt, note e w).

Definition console_log (m : Message) : M unit := emit (Log m).

Definition console_error (m : Message) : M unit := emit (LogError m).

(** ** The platform calls *)

(** [readline.createInterface({ input, output })] *)
Definition createInterface : M unit := emit CreateInterface.

(** [rl.close()] *)
Definition rl_close : M unit := emit CloseInterface.

(** [rl.question(question, callback)]: the question is written out, and the
    callback receives the next line the operator types. *)
Definition rl_question (question : string) : M string :=
  fun w =>
    let w' := note (Question question) w in
    match stdin w with
    | line :: rest => (Done line, with_stdin rest w')
    | [] => (Blocked, w')
    end.

(** [require.resolve(name)] *)
Definition require_resolve (name : string) : M unit :=
  fun w =>
    if resolvable w name then (Done tt, w)
    else (Thrown (Error ("Cannot find module '" ++ name ++ "'")), w).

(** [execSync(command, { stdio: "inherit" })]: the command is run, and
    throws when it fails.  What the command itself does to the file system
    and to what resolves afterwards is not modelled; the scripts resolve
    every name before they run the first command, and never again. *)
Definition execSync (command : string) : M unit :=
  fun w =>
    let w' := note (Exec command) w in
    match npm w command with
    | None => (Done tt, w')
    | Some reason => (Thrown (Error reason), w')
    end.

(** [fs.readFileSync(path, "utf8")] *)
Definition readFileSync (path : string) : M string :=
  fun w =>
    match files w path with
    | Some text => (Done text, w)
    | None =>
        (Thrown (Error ("ENOENT: no such file or directory, open '"
                          ++ path ++ "'")), w)
    end.

(** [fs.writeFileSync(path, data)]; [data] is `undefined` when
    [JSON.stringify] returned that. *)
Definition writeFileSync (path : string) (data : option string) : M unit :=
  fun w =>
    match data with
    | None => (Thrown (Error "The data argument must be of type string"), w)
    | Some text =>
        match write_error w path with
        | Some reason => (Thrown (Error reason), w)
        | None =>
            (Done tt,
             note (Written path text)
               (with_files (fun p => if String.eqb p path then Some text
                                     else files w p) w))
        end
    end.

(** The port on which [server.listen(port)] listens, for an argument that
    satisfies [isPortValid], which is all that the scripts pass: a number
    or a numeral string denoting an integer from 1 to 65535, else [listen]
    throws.  On other arguments the definition is not meant to be read:
    there Node does not throw but binds a port of the system's choice
    (undefined, null), a pipe (a string that is no numeral) or the port of
    an options object, none of which is modelled. *)
Definition listen_port (port : Value) : option Z :=
  let integral (n : Number) :=
    match n with
    | Finite q =>
        let z := Qnum q / Zpos (Qden q) in
        if (Qnum q mod Zpos (Qden q) =? 0) && (0 <=? z) && (z <=? 65535)
        then Some z else None
    | _ => None
    end in
  match port with
  | Num n => integral n
  | Str s => if is_empty (trim s) then None else integral (StringToNumber s)
  | _ => None
  end.

(** Whether a bind to port [p] fails now: another process holds the port,
    something else refuses the bind, or this process already has a server
    listening on it. *)
Definition busy (w : World) (p : Z) : bool :=
  bound_elsewhere w (clock w) p || bind_refused w (clock w) p
  || existsb (Z.eqb p) (sockets w).

(** [net.createServer().listen(port)], up to the first event: the port the
    server listens on (the `listening` event), or [None] (the `error`
    event). *)
Definition listen (port : Value) : M (option Z) :=
  fun w =>
    match listen_port port with
    | None => (Thrown (Error "Port should be >= 0 and < 65536"), w)
    | Some p =>
        let t := clock w in
        if busy w p
        then (Done None, note (BindFailed t p) (with_clock (S t) w))
        else (Done (Some p),
              note (Listening t p)
                (with_sockets (p :: sockets w) (with_clock (S t) w)))
    end.

(** [server.close(callback)], up to the callback: the port is released. *)
Definition server_close (p : Z) : M unit :=
  fun w =>
    (Done tt,
     note (Closed p)
       (with_sockets (filter (fun q => negb (Z.eqb p q)) (sockets w)) w)).

(** ** The scripts: what both share *)

Definition requiredDeps : list string := ["express"].

(** [isDependencyInstalled] *)
Definition isDependencyInstalled (dependency : string) : M bool :=
  try_catch (require_resolve dependency ;; ret true) (fun _ => ret false).

Fixpoint filterM {A} (keep : A -> M bool) (l : list A) : M (list A) :=
  match l with
  | [] => ret []
  | a :: rest =>
      k <- keep a ;;
      kept <- filterM keep rest ;;
      ret (if k then a :: kept else kept)
  end.

Section Dependencies.

(** The two scripts differ in [askUser] only. *)
Variable ask : string -> M string.

(** [installDependency]: [None] is null. *)
Definition installDependency (dep : string) : M (option string) :=
  answer <- ask ("Do you want to install " ++ dq ++ dep ++ dq
                 ++ "? (yes/no): ") ;;
  if String.eqb answer "yes" then
    try_catch
      (console_log (Installing dep) ;;
       execSync ("npm install " ++ dep) ;;
       console_log (Installed dep))
      (fun error => console_error (InstallFailed dep (message error))) ;;
    ret None
  else ret (Some dep).

(** The loop [for (const dep of missingDependencies)], from the declined
    names collected so far; [if (declined)] tests the truthiness of the
    returned name, null being falsy. *)
Fixpoint installMissing (missingDependencies declinedDependencies : list string)
  : M (list string) :=
  match missingDependencies with
  | [] => ret declinedDependencies
  | dep :: rest =>
      declined <- installDependency dep ;;
      installMissing rest
        (match declined with
         | Some name =>
             if ToBoolean (Str name)
             then (declinedDependencies ++ [name])%list
             else declinedDependencies
         | None => declinedDependencies
         end)
  end.

Fixpoint forEach {A} (l : list A) (f : A -> M unit) : M unit :=
  match l with
  | [] => ret tt
  | a :: rest => f a ;; forEach rest f
  end.

(** [checkAndInstallDependencies].  The script returns nothing; the model
    returns the declined names it reports. *)
Definition checkAndInstallDependencies (dependencies : list string)
  : M (list string) :=
  missingDependencies <-
    filterM (fun dep => installed <- isDependencyInstalled dep ;;
                        ret (negb installed)) dependencies ;;
  declinedDependencies <- installMissing missingDependencies [] ;;
  (if (0 <? List.length declinedDependencies)%nat then
     console_log NotInstalledHeader ;;
     console_log (DeclinedList declinedDependencies) ;;
     console_log ManualHeader ;;
     forEach declinedDependencies (fun dep => console_log (ManualCommand dep))
   else console_log AllInstalled) ;;
  ret declinedDependencies.

End Dependencies.

(** ** The merged script *)

(** [askUser], on the one interface [rl] of the script. *)
Definition askUser (question : string) : M string :=
  answer <- rl_question question ;;
  ret (toLowerCase (trim answer)).

(** [closeReadline] *)
Definition closeReadline : M unit := rl_close.

(** [isPortInUse]: the promise resolves true on the server's `error` event,
    and false in the callback of [server.close], which the `listening`
    event triggers. *)
Definition isPortInUse (port : Value) : M bool :=
  server <- listen port ;;
  match server with
  | None => ret true
  | Some p => server_close p ;; ret false
  end.

(** How the port stage ends.  The script returns nothing; the model returns
    the terminal state, with the final value of the local [config]. *)
Inductive PortStage :=
| LoadFailed
| Unchanged (config : Value)
| Updated (config : Value).

Definition configPath : string := "./config.json".

Section PortStage.

(** [JSON.parse], not modelled: the development holds for any. *)
Variable JSON_parse : string -> Result Value.

Variable number_text : Q -> string.

(** The loop [while (true)] of [checkAndSetPort].  Every iteration first
    awaits an answer, so one more iteration than the operator has lines
    left is never started: [fuel] is set above that number. *)
Fixpoint promptLoop (fuel : nat) (config : Value) : M PortStage :=
  match fuel with
  | O => fun w => (Blocked, w)
  | S fuel' =>
      answer <- askUser "Enter a new port: " ;;
      let newPort := Num (parseInt answer) in
      valid <- lift (isPortValid newPort) ;;
      if negb valid then
        console_log InvalidPort ;;
        promptLoop fuel' config
      else
        inUse <- isPortInUse newPort ;;
        if inUse then
          console_log PortInUse ;;
          promptLoop fuel' config
        else
          let config' := set_port config newPort in
          writeFileSync configPath (JSON_stringify number_text config' 2) ;;
          console_log (PortUpdated newPort) ;;
          ret (Updated config')
  end.

(** [checkAndSetPort] *)
Definition checkAndSetPort : M PortStage :=
  loaded <-
    try_catch
      (text <- readFileSync configPath ;;
       config <- lift (JSON_parse text) ;;
       ret (Ok config))
      (fun error => ret (Raise error)) ;;
  match loaded with
  | Raise error =>
      console_error (ConfigReadFailed (message error)) ;;
      ret LoadFailed
  | Ok config =>
      port <- lift (get_port config) ;;
      rejected <-
        (if negb (ToBoolean port) then ret true
         else
           valid <- lift (isPortValid port) ;;
           if negb valid then ret true else isPortInUse port) ;;
      if rejected then
        console_log (PortInvalidOrInUse port) ;;
        fun w => promptLoop (S (List.length (stdin w))) config w
      else
        console_log (PortOk port) ;;
        ret (Unchanged config)
  end.

(** The script from its first statement to its last: the interface [rl]
    is created when the module loads, then the two stages run and the
    interface is closed. *)
Definition main (dependencies : list string) : M unit :=
  createInterface ;;
  checkAndInstallDependencies askUser dependencies ;;
  checkAndSetPort ;;
  closeReadline.

Definition bootupchecks : M unit := main requiredDeps.

End PortStage.

(** ** The earlier script, [src/bootupchecks.js] *)

Module Legacy.

(** [askUser]: an interface of its own for each question, closed when the
    answer arrives. *)
Definition askUser (question : string) : M string :=
  createInterface ;;
  answer <- rl_question question ;;
  rl_close ;;
  ret (toLowerCase (trim answer)).

Definition main (dependencies : list string) : M (list string) :=
  checkAndInstallDependencies askUser dependencies.

Definition bootupchecks : M (list string) := main requiredDeps.

End Legacy.

(** ** Notions the properties are stated with *)

(** A port as the specification words it: an integer from 1 to 65535. *)
Definition integer_port (p : Value) : bool :=
  match p with
  | Num (Finite q) =>
      let z := Qnum q / Zpos (Qden q) in
      (Qnum q mod Zpos (Qden q) =? 0) && (1 <=? z) && (z <=? 65535)
  | _ => false
  end.

(** A number between 1 and 65535, integer or not. *)
Definition in_port_range (n : Number) : bool :=
  match n with
  | Finite q => Qle_bool 1 q && Qle_bool q 65535
  | _ => false
  end.

Definition is_decimal_digit (c : ascii) : bool :=
  (48 <=? code c) && (code c <=? 57).

Fixpoint all_digits (s : string) : bool :=
  match s with
  | String c r => is_decimal_digit c && all_digits r
  | EmptyString => true
  end.

(** A string of decimal digits, at least one. *)
Definition decimal_numeral (s : string) : bool :=
  negb (is_empty s) && all_digits s.

(** The integer a string of decimal digits denotes. *)
Definition decimal_value (s : string) : Z :=
  digits_value 10 (fst (digits_prefix 10 s)).

(** A numeric answer: a decimal numeral, possibly signed, and nothing
    else. *)
Definition numeric_input (answer : string) : bool :=
  decimal_numeral (snd (sign_prefix answer)).

(** The decimal digits an answer starts with, after white space and a
    sign: what [parseInt] reads. *)
Definition leading_digits (answer : string) : list Z :=
  fst (digits_prefix 10 (snd (sign_prefix (trimStart answer)))).

(** What the operator's line becomes in [askUser]. *)
Definition answer_of (line : string) : string := toLowerCase (trim line).

Definition is_probe (e : Event) : bool :=
  match e with
  | Listening _ _ | BindFailed _ _ => true
  | _ => false
  end.

(** The last bind attempt among some events. *)
Definition last_probe (events : list Event) : option Event :=
  last (map Some (filter is_probe events)) None.

Definition is_session (e : Event) : bool :=
  match e with
  | CreateInterface | CloseInterface => true
  | _ => false
  end.

(** The events on readline interfaces among some events. *)
Definition session_events (events : list Event) : list Event :=
  filter is_session events.

Definition is_question (e : Event) : bool :=
  match e with
  | Question _ => true
  | _ => false
  end.

Definition is_write (e : Event) : bool :=
  match e with
  | Written _ _ => true
  | _ => false
  end.

Definition is_exec (e : Event) : bool :=
  match e with
  | Exec _ => true
  | _ => false
  end.

(** A port is free for a bind attempt made in world [w]. *)
Definition free (w : World) (p : Z) : Prop := busy w p = false.



(** The question of the port loop. *)
Definition port_question : string := "Enter a new port: ".

(** The value of the local [config] when the stage ends, if it was
    loaded. *)
Definition final_config (stage : PortStage) : option Value :=
  match stage with
  | LoadFailed => None
  | Unchanged config | Updated config => Some config
  end.

(** Whether a run returned. *)
Definition returned {A} (o : Outcome A) : bool :=
  match o with
  | Done _ => true
  | _ => false
  end.

(** The notice of an invalid port among the events. *)
Definition is_invalid_notice (e : Event) : bool :=
  match e with
  | Log InvalidPort => true
  | _ => false
  end.

(** The question of [installDependency]. *)
Definition install_question (dep : string) : string :=
  "Do you want to install " ++ dq ++ dep ++ dq ++ "? (yes/no): ".

(** The names the specification calls declined: the missing names, paired
    in order with the answers, whose answer is not yes. *)
Fixpoint declined_names (missing answers : list string) : list string :=
  match missing, answers with
  | dep :: missing', answer :: answers' =>
      if String.eqb answer "yes" then declined_names missing' answers'
      else dep :: declined_names missing' answers'
  | _, _ => []
  end.

(** The names that [require.resolve] does not find, in order. *)
Definition missing_in (w : World) (dependencies : list string) : list string :=
  filter (fun dep => negb (resolvable w dep)) dependencies.

(** The world after an install command that failed. *)
Definition install_failed (dep reason : string) (w : World) : World :=
  note (LogError (InstallFailed dep reason))
    (note (Exec ("npm install " ++ dep)) (note (Log (Installing dep)) w)).

(** The world after an install command that succeeded. *)
Definition install_succeeded (dep : string) (w : World) : World :=
  note (Log (Installed dep))
    (note (Exec ("npm install " ++ dep)) (note (Log (Installing dep)) w)).

(** What the dependency stage needs of an [askUser]: with a line at hand it
    asks its question once and returns the trimmed, lower-cased line. *)
Definition answers_in_order (ask : string -> M string) : Prop :=
  forall question w line rest,
    stdin w = line :: rest ->
    exists w1 events,
      ask question w = (Done (answer_of line), w1)
      /\ stdin w1 = rest /\ npm w1 = npm w
      /\ trace w1 = (trace w ++ events)%list
      /\ filter is_question events = [Question question].

(** [all_from n z p]: [p] holds of the [n] integers from [z] on. *)
Fixpoint all_from (n : nat) (z : Z) (p : Z -> bool) : bool :=
  match n with
  | O => true
  | S k => p z && all_from k (z + 1) p
  end.

Definition rounds_to_itself (z : Z) : bool :=
  match round_double (inject_Z z * 1) with
  | Finite q => Z.eqb (Qnum q) z && Pos.eqb (Qden q) 1
  | _ => false
  end.

(** The world after a probe of port [p] that found it free: the bind, then
    the close. *)
Definition probed_free (p : Z) (w : World) : World :=
  note (Closed p)
    (with_sockets (filter (fun q => negb (Z.eqb p q)) (p :: sockets w))
       (note (Listening (clock w) p)
          (with_sockets (p :: sockets w) (with_clock (S (clock w)) w)))).

(** The world after a probe of port [p] whose bind failed. *)
Definition probed_busy (p : Z) (w : World) : World :=
  note (BindFailed (clock w) p) (with_clock (S (clock w)) w).

(** The world after the operator answered a question with a line. *)
Definition answered (question : string) (rest : list string) (w : World)
  : World :=
  with_stdin rest (note (Question question) w).

(** The world after a write of [text] to [path]. *)
Definition written (path text : string) (w : World) : World :=
  note (Written path text)
    (with_files (fun p => if String.eqb p path then Some text else files w p)
       w).

(** [w'] is [w] after more events, all of them satisfying [P]. *)
Definition extends (P : Event -> bool) (w w' : World) : Prop :=
  exists events,
    trace w' = (trace w ++ events)%list /\ forallb P events = true.

(** A computation that emits only events satisfying [P]. *)
Definition emits_only (P : Event -> bool) {A} (m : M A) : Prop :=
  forall w o w', m w = (o, w') -> extends P w w'.

(** An event of a stage: anything but the creation or the closing of a
    readline interface. *)
Definition stage_event (e : Event) : bool := negb (is_session e).

(** An event that asks nothing and writes nothing. *)
Definition silent_event (e : Event) : bool :=
  negb (is_question e) && negb (is_write e).

(** ** Notions the further properties are stated with *)

(** The names the operator accepted: the missing names, paired in order
    with the answers, whose answer is yes. *)
Fixpoint accepted_names (missing answers : list string) : list string :=
  match missing, answers with
  | dep :: missing', answer :: answers' =>
      if String.eqb answer "yes" then dep :: accepted_names missing' answers'
      else accepted_names missing' answers'
  | _, _ => []
  end.

(** The declined names that [if (declined)] lets through: the non-empty
    ones. *)
Definition reported_names (missing answers : list string) : list string :=
  filter (fun dep => negb (is_empty dep)) (declined_names missing answers).

(** The command [installDependency] runs for a name. *)
Definition install_command (dep : string) : string := "npm install " ++ dep.

(** An [askUser] for the dependency stage: with a line at hand it asks its
    question once, runs no command, and returns the trimmed, lower-cased
    line; with none it is blocked. *)
Definition asks_once (ask : string -> M string) : Prop :=
  forall question w,
    match stdin w with
    | line :: rest =>
        exists w1 events,
          ask question w = (Done (answer_of line), w1)
          /\ stdin w1 = rest /\ npm w1 = npm w
          /\ trace w1 = (trace w ++ events)%list
          /\ filter is_question events = [Question question]
          /\ filter is_exec events = []
    | [] => exists w1, ask question w = (Blocked, w1)
    end.

(** A world with the events on readline interfaces left out of its trace. *)
Definition forget_sessions (w : World) : World :=
  with_trace (filter stage_event (trace w)) w.

(** Two computations that agree up to the events on readline interfaces:
    from worlds that differ in those events only, they end the same way, in
    worlds that differ in those events only. *)
Definition similar {A} (m1 m2 : M A) : Prop :=
  forall w1 w2,
    forget_sessions w1 = forget_sessions w2 ->
    fst (m1 w1) = fst (m2 w2)
    /\ forget_sessions (snd (m1 w1)) = forget_sessions (snd (m2 w2)).

(** An interface created and closed, [k] times over. *)
Definition interfaces (k : nat) : list Event :=
  List.concat (repeat [CreateInterface; CloseInterface] k).

(** A configuration that is a record. *)
Definition is_record (config : Value) : bool :=
  match config with
  | Obj _ => true
  | _ => false
  end.

(** The keys of a record, in order. *)
Definition keys (fields : list (string * Value)) : list string :=
  map fst fields.

(** A notice that a candidate port was rejected. *)
Definition is_rejection (e : Event) : bool :=
  match e with
  | Log InvalidPort | Log PortInUse => true
  | _ => false
  end.

(** A text that does not start with a decimal digit. *)
Definition no_digit_ahead (s : string) : bool :=
  match s with
  | String c _ => negb (is_decimal_digit c)
  | EmptyString => true
  end.

(** An answer that the validator rejects. *)
Definition rejected_answer (line : string) : Prop :=
  in_port_range (parseInt (answer_of line)) = false.

(** A question or a rejection notice: the dialogue of the port loop. *)
Definition is_dialogue (e : Event) : bool := is_question e || is_rejection e.

(** The notice that answers a rejected line: the answer is not a valid
    port, or the port it names is in use. *)
Definition rejection_of (line : string) : Event :=
  if in_port_range (parseInt (answer_of line)) then Log PortInUse
  else Log InvalidPort.

(** The dialogue over rejected lines, followed by the question that the
    accepted line answers. *)
Definition dialogue (rejected : list string) : list Event :=
  (flat_map (fun line => [Question port_question; rejection_of line]) rejected
     ++ [Question port_question])%list.

(** An event of the dependency stage on the missing names [names]: a
    question, a line on a console, an interface created or closed, or the
    install command of one of the names; not another command, not a bind
    attempt, not a write. *)
Definition dependency_event (names : list string) (e : Event) : bool :=
  match e with
  | Question _ | Log _ | LogError _ => true
  | CreateInterface | CloseInterface => true
  | Exec command => existsb (String.eqb command) (map install_command names)
  | _ => false
  end.

(** [w'] is [w] after events of the dependency stage only, with the
    servers the process holds and the count of its bind attempts as they
    were. *)
Definition undisturbed (names : list string) (w w' : World) : Prop :=
  sockets w' = sockets w /\ clock w' = clock w
  /\ extends (dependency_event names) w w'.

(** A computation that leaves every world undisturbed. *)
Definition leaves_system (names : list string) {A} (m : M A) : Prop :=
  forall w o w', m w = (o, w') -> undisturbed names w w'.

(** ** Sample worlds *)

(** A number text for the samples: the decimal digits of an integer. *)
Fixpoint digits_text (fuel : nat) (n : Z) (acc : string) : string :=
  match fuel with
  | O => acc
  | S k =>
      let acc' := String (unit_of (48 + n mod 10)) acc in
      if n <? 10 then acc' else digits_text k (n / 10) acc'
  end.

Definition sample_number_text (q : Q) : string :=
  let n := Qnum (Qred q) in
  if n <? 0 then "-" ++ digits_text 400 (- n) EmptyString
  else digits_text 400 n EmptyString.

(** A world with no package installed, every port free, every write
    accepted, and the given operator lines and files. *)
Definition sample_world (lines : list string) (fs : string -> option string)
  : World :=
  mkWorld lines (fun _ => false) (fun _ => None) fs (fun _ => None)
    O (fun _ _ => false) (fun _ _ => false) [] [].

(** The same world, with a package manager that fails on every command. *)
Definition sample_world_without_npm (lines : list string) : World :=
  mkWorld lines (fun _ => false) (fun _ => Some "Command failed")
    (fun _ => None) (fun _ => None) O (fun _ _ => false) (fun _ _ => false)
    [] [].

(** A world in which package a is installed and nothing else is. *)
Definition sample_world_with_a (lines : list string) : World :=
  mkWorld lines (fun name => String.eqb name "a") (fun _ => None)
    (fun _ => None) (fun _ => None) O (fun _ _ => false) (fun _ _ => false)
    [] [].

(** A file system with the one file [config.json], and a parser that reads
    its text as the given value. *)
Definition only_config (text : string) (path : string) : option string :=
  if String.eqb path configPath then Some text else None.

Definition sample_parse (text : string) (config : Value) (input : string)
  : Result Value :=
  if String.eqb input text then Ok config
  else Raise (Error "Unexpected token").

Definition sample_config : Value :=
  Obj [("port", Num (of_Z 80000)); ("otherField", Str "x")].

(** A record whose port is valid. *)
Definition sample_config_with_port : Value :=
  Obj [("port", Num (of_Z 3000)); ("otherField", Str "x")].

(** A record whose port is a text. *)
Definition sample_config_with_text : Value :=
  Obj [("port", Str "3000"); ("otherField", Str "x")].

(** The port stage on a file that reads as [config], the operator typing
    [lines]. *)
Definition sample_stage (config : Value) (lines : list string)
  : Outcome PortStage * World :=
  checkAndSetPort (sample_parse "config" config) sample_number_text
    (sample_world lines (only_config "config")).

(** * Properties *)

(** ** The port validator *)

Lemma isPortValid_ToNumber (p : Value) :
  isPortValid p = and_then (ToNumber p) (fun n => Ok (in_port_range n)).
Proof.
  unfold isPortValid, ge, le, and_then.
  destruct (ToNumber p) as [[ | [ | ] | q] | e]; try reflexivity.
  cbn. change (inject_Z 1) with 1%Q. change (inject_Z 65535) with 65535%Q.
  destruct (Qle_bool 1 q), (Qle_bool q 65535); reflexivity.
Qed.

Lemma isPortValid_Num (n : Number) :
  isPortValid (Num n) = Ok (in_port_range n).
Proof. rewrite isPortValid_ToNumber. reflexivity. Qed.

Lemma in_port_range_of_Z (z : Z) :
  in_port_range (of_Z z) = (1 <=? z) && (z <=? 65535).
Proof.
  unfold in_port_range, of_Z, Qle_bool, inject_Z. cbn [Qnum Qden].
  rewrite !Z.mul_1_r. reflexivity.
Qed.

Lemma in_port_range_iff (n : Number) :
  in_port_range n = true <->
  exists q, n = Finite q /\ (1 <= q)%Q /\ (q <= 65535)%Q.
Proof.
  split.
  - destruct n as [ | s | q]; cbn; try discriminate.
    intros H. apply andb_true_iff in H. destruct H as [H1 H2].
    exists q. repeat split; apply Qle_bool_iff; assumption.
  - intros [q [-> [H1 H2]]]. cbn.
    apply andb_true_iff. split; apply Qle_bool_iff; assumption.
Qed.

(** C1, as the claim states it, fails: [isPortValid] does not test that its
    argument is an integer.  The number 1.5 is no integer port, and is
    accepted. *)
Lemma isPortValid_accepts_a_fraction :
  integer_port (Num (Finite (3 # 2))) = false /\
  isPortValid (Num (Finite (3 # 2))) = Ok true.
Proof. split; reflexivity. Qed.

(** C1, amended.  On an integer [z], [isPortValid] returns true exactly when
    [1 <= z <= 65535]: false on 0, 65536 and -1, true on 1 and 65535.  On
    any value, it returns true exactly when the value converts to a number
    between 1 and 65535, integer or not: so NaN, undefined, null and a
    text that is no numeral give false, the text 3000 gives true. *)
Theorem isPortValid_range :
  (forall z : Z, isPortValid (Num (of_Z z)) = Ok ((1 <=? z) && (z <=? 65535)))
  /\ (forall z : Z, isPortValid (Num (of_Z z)) = Ok true <-> 1 <= z <= 65535)
  /\ (forall p : Value,
        isPortValid p = Ok true <->
        exists q, ToNumber p = Ok (Finite q) /\ (1 <= q)%Q /\ (q <= 65535)%Q)
  /\ isPortValid (Num (of_Z 0)) = Ok false
  /\ isPortValid (Num (of_Z 1)) = Ok true
  /\ isPortValid (Num (of_Z 65535)) = Ok true
  /\ isPortValid (Num (of_Z 65536)) = Ok false
  /\ isPortValid (Num (of_Z (-1))) = Ok false
  /\ isPortValid (Num NaN) = Ok false
  /\ isPortValid Undefined = Ok false
  /\ isPortValid Null = Ok false
  /\ isPortValid (Str "abc") = Ok false
  /\ isPortValid (Str "3000") = Ok true.
Proof.
  split; [ | split; [ | split ] ].
  - intros z. rewrite isPortValid_Num, in_port_range_of_Z. reflexivity.
  - intros z. rewrite isPortValid_Num, in_port_range_of_Z. split.
    + intros H. injection H as H. apply andb_true_iff in H.
      destruct H as [H1 H2]. apply Z.leb_le in H1, H2. lia.
    + intros [H1 H2]. f_equal. apply andb_true_iff.
      split; apply Z.leb_le; assumption.
  - intros p. rewrite isPortValid_ToNumber. split.
    + destruct (ToNumber p) as [n | e]; cbn [and_then]; [ | discriminate ].
      intros H. injection H as H. apply in_port_range_iff in H.
      destruct H as [q [-> H]]. exists q. split; [ reflexivity | exact H ].
    + intros [q [-> H]]. cbn [and_then]. f_equal. apply in_port_range_iff.
      exists q. split; [ reflexivity | exact H ].
  - repeat split; reflexivity.
Qed.

(** ** Running a computation *)

Lemma bind_done {A B} (m : M A) (k : A -> M B) w a w1 :
  m w = (Done a, w1) -> bind m k w = k a w1.
Proof. intros H. unfold bind. rewrite H. reflexivity. Qed.

Lemma bind_thrown {A B} (m : M A) (k : A -> M B) w e w1 :
  m w = (Thrown e, w1) -> bind m k w = (Thrown e, w1).
Proof. intros H. unfold bind. rewrite H. reflexivity. Qed.

Lemma bind_blocked {A B} (m : M A) (k : A -> M B) w w1 :
  m w = (Blocked, w1) -> bind m k w = (Blocked, w1).
Proof. intros H. unfold bind. rewrite H. reflexivity. Qed.

Lemma askUser_answer (question line : string) (rest : list string) w :
  stdin w = line :: rest ->
  askUser question w = (Done (answer_of line), answered question rest w).
Proof.
  intros H. unfold askUser, bind, rl_question. rewrite H. reflexivity.
Qed.

Lemma askUser_blocked (question : string) w :
  stdin w = [] -> askUser question w = (Blocked, note (Question question) w).
Proof.
  intros H. unfold askUser, bind, rl_question. rewrite H. reflexivity.
Qed.

(** ** The port probe *)

Lemma filter_absent (p : Z) (l : list Z) :
  existsb (Z.eqb p) l = false -> filter (fun q => negb (Z.eqb p q)) l = l.
Proof.
  induction l as [ | a l IH]; cbn; [ reflexivity | ].
  intros H. apply orb_false_iff in H. destruct H as [Ha Hl].
  rewrite Ha. cbn. rewrite IH by assumption. reflexivity.
Qed.

Lemma isPortInUse_bad (port : Value) w :
  listen_port port = None ->
  exists e, isPortInUse port w = (Thrown e, w).
Proof.
  intros H. unfold isPortInUse, bind, listen. rewrite H. eexists. reflexivity.
Qed.

Lemma isPortInUse_busy (port : Value) (p : Z) w :
  listen_port port = Some p -> busy w p = true ->
  isPortInUse port w = (Done true, probed_busy p w).
Proof.
  intros H B. unfold isPortInUse, bind, listen. rewrite H, B. reflexivity.
Qed.

Lemma isPortInUse_free (port : Value) (p : Z) w :
  listen_port port = Some p -> busy w p = false ->
  isPortInUse port w = (Done false, probed_free p w).
Proof.
  intros H B. unfold isPortInUse, bind, listen. rewrite H, B. reflexivity.
Qed.

(** The three ways a probe can go. *)
Lemma isPortInUse_cases (port : Value) w :
  (listen_port port = None /\ exists e, isPortInUse port w = (Thrown e, w))
  \/ (exists p, listen_port port = Some p /\ busy w p = true
                /\ isPortInUse port w = (Done true, probed_busy p w))
  \/ (exists p, listen_port port = Some p /\ busy w p = false
                /\ isPortInUse port w = (Done false, probed_free p w)).
Proof.
  destruct (listen_port port) as [p | ] eqn:H.
  - destruct (busy w p) eqn:B.
    + right. left. exists p. auto using isPortInUse_busy.
    + right. right. exists p. auto using isPortInUse_free.
  - left. split; [ reflexivity | ]. apply isPortInUse_bad. assumption.
Qed.

Lemma isPortInUse_false (port : Value) w w' :
  isPortInUse port w = (Done false, w') ->
  exists p, listen_port port = Some p /\ busy w p = false
            /\ w' = probed_free p w.
Proof.
  intros R.
  destruct (isPortInUse_cases port w)
    as [[_ [e H]] | [[p [_ [_ H]]] | [p [L [B H]]]]];
    rewrite H in R; try discriminate.
  injection R as <-. exists p. auto.
Qed.

Lemma sockets_probed_free (p : Z) w :
  busy w p = false -> sockets (probed_free p w) = sockets w.
Proof.
  intros B. unfold busy in B. apply orb_false_iff in B. destruct B as [_ B].
  cbn. rewrite Z.eqb_refl. cbn. apply filter_absent. assumption.
Qed.

(** C4.  When [isPortInUse] resolves false, the server it bound has been
    closed before: the close is the last event, and the process holds the
    port no more.  So two calls in a row on a free port, no other process
    binding it in between, both resolve false. *)
Theorem isPortInUse_releases_the_port :
  (forall (port : Value) (w w' : World),
     isPortInUse port w = (Done false, w') ->
     exists p,
       listen_port port = Some p /\ free w p
       /\ trace w' = (trace w ++ [Listening (clock w) p; Closed p])%list
       /\ sockets w' = sockets w
       /\ existsb (Z.eqb p) (sockets w') = false)
  /\ (forall (port : Value) (p : Z) (w : World),
        listen_port port = Some p -> free w p ->
        bound_elsewhere w (S (clock w)) p = false ->
        bind_refused w (S (clock w)) p = false ->
        exists w',
          (first <- isPortInUse port ;;
           second <- isPortInUse port ;;
           ret (first, second)) w = (Done (false, false), w')).
Proof.
  split.
  - intros port w w' R. apply isPortInUse_false in R.
    destruct R as [p [L [B ->]]]. exists p.
    repeat split; try assumption.
    + cbn. rewrite <- app_assoc. reflexivity.
    + apply sockets_probed_free. assumption.
    + rewrite sockets_probed_free by assumption.
      unfold busy in B. apply orb_false_iff in B. apply B.
  - intros port p w L B E1 E2.
    assert (B' : busy (probed_free p w) p = false).
    { unfold busy. rewrite sockets_probed_free by assumption. cbn.
      rewrite E1, E2. unfold free, busy in B.
      apply orb_false_iff in B. destruct B as [_ B]. rewrite B. reflexivity. }
    eexists.
    rewrite (bind_done _ _ _ _ _ (isPortInUse_free port p w L B)).
    rewrite (bind_done _ _ _ _ _ (isPortInUse_free port p _ L B')).
    reflexivity.
Qed.

(** A free port, probed once and twice. *)
Lemma isPortInUse_on_port_3000 :
  (exists p,
     listen_port (Num (of_Z 3000)) = Some p
     /\ free (sample_world [] (fun _ => None)) p
     /\ trace (probed_free 3000 (sample_world [] (fun _ => None)))
        = [Listening 0 p; Closed p]
     /\ sockets (probed_free 3000 (sample_world [] (fun _ => None))) = []
     /\ existsb (Z.eqb p)
          (sockets (probed_free 3000 (sample_world [] (fun _ => None))))
        = false)
  /\ (exists w',
        (first <- isPortInUse (Num (of_Z 3000)) ;;
         second <- isPortInUse (Num (of_Z 3000)) ;;
         ret (first, second)) (sample_world [] (fun _ => None))
        = (Done (false, false), w')).
Proof.
  split.
  - apply (proj1 isPortInUse_releases_the_port (Num (of_Z 3000))). reflexivity.
  - apply (proj2 isPortInUse_releases_the_port (Num (of_Z 3000)) 3000);
      reflexivity.
Defined.

(** ** What a computation emits *)

Section Emits.

Variable P : Event -> bool.

Lemma extends_refl w : extends P w w.
Proof. exists []. split; [ symmetry; apply app_nil_r | reflexivity ]. Qed.

Lemma extends_trans w1 w2 w3 :
  extends P w1 w2 -> extends P w2 w3 -> extends P w1 w3.
Proof.
  intros [es1 [T1 F1]] [es2 [T2 F2]]. exists (es1 ++ es2)%list. split.
  - rewrite T2, T1, app_assoc. reflexivity.
  - rewrite forallb_app, F1, F2. reflexivity.
Qed.

Lemma extends_note e w w' :
  P e = true -> trace w' = trace w -> extends P w (note e w').
Proof.
  intros H T. exists [e]. split; cbn; [ rewrite T | rewrite H ]; reflexivity.
Qed.

Lemma emits_ret {A} (a : A) : emits_only P (ret a).
Proof. intros w o w' H. injection H as <- <-. apply extends_refl. Qed.

Lemma emits_throw {A} (e : Exn) : emits_only P (@throw A e).
Proof. intros w o w' H. injection H as <- <-. apply extends_refl. Qed.

Lemma emits_lift {A} (r : Result A) : emits_only P (lift r).
Proof. destruct r; [ apply emits_ret | apply emits_throw ]. Qed.

Lemma emits_bind {A B} (m : M A) (k : A -> M B) :
  emits_only P m -> (forall a, emits_only P (k a)) -> emits_only P (bind m k).
Proof.
  intros Hm Hk w o w' H. unfold bind in H.
  destruct (m w) as [[a | e | ] w1] eqn:R.
  - eapply extends_trans; [ eapply Hm | eapply Hk ]; eassumption.
  - injection H as <- <-. eapply Hm; eassumption.
  - injection H as <- <-. eapply Hm; eassumption.
Qed.

Lemma emits_try_catch {A} (body : M A) (handler : Exn -> M A) :
  emits_only P body -> (forall e, emits_only P (handler e)) ->
  emits_only P (try_catch body handler).
Proof.
  intros Hb Hh w o w' H. unfold try_catch in H.
  destruct (body w) as [[a | e | ] w1] eqn:R.
  - injection H as <- <-. eapply Hb; eassumption.
  - eapply extends_trans; [ eapply Hb | eapply Hh ]; eassumption.
  - injection H as <- <-. eapply Hb; eassumption.
Qed.

Lemma emits_if {A} (b : bool) (m1 m2 : M A) :
  emits_only P m1 -> emits_only P m2 -> emits_only P (if b then m1 else m2).
Proof. destruct b; auto. Qed.

Lemma emits_emit e : P e = true -> emits_only P (emit e).
Proof.
  intros H w o w' R. injection R as <- <-. apply extends_note; auto.
Qed.

Lemma emits_rl_question q :
  P (Question q) = true -> emits_only P (rl_question q).
Proof.
  intros H w o w' R. unfold rl_question in R.
  destruct (stdin w); injection R as <- <-;
    (exists [Question q]; split; cbn; [ | rewrite H ]; reflexivity).
Qed.

Lemma emits_require_resolve name : emits_only P (require_resolve name).
Proof.
  intros w o w' R. unfold require_resolve in R.
  destruct (resolvable w name); injection R as <- <-; apply extends_refl.
Qed.

Lemma emits_execSync command :
  P (Exec command) = true -> emits_only P (execSync command).
Proof.
  intros H w o w' R. unfold execSync in R.
  destruct (npm w command); injection R as <- <-; apply extends_note; auto.
Qed.

Lemma emits_readFileSync path : emits_only P (readFileSync path).
Proof.
  intros w o w' R. unfold readFileSync in R.
  destruct (files w path); injection R as <- <-; apply extends_refl.
Qed.

Lemma emits_writeFileSync path data :
  (forall text, P (Written path text) = true) ->
  emits_only P (writeFileSync path data).
Proof.
  intros H w o w' R. unfold writeFileSync in R.
  destruct data as [text | ]; [ | injection R as <- <-; apply extends_refl ].
  destruct (write_error w path); injection R as <- <-;
    [ apply extends_refl | apply extends_note; auto ].
Qed.

Lemma emits_isPortInUse port :
  (forall t p, P (Listening t p) = true) ->
  (forall t p, P (BindFailed t p) = true) ->
  (forall p, P (Closed p) = true) ->
  emits_only P (isPortInUse port).
Proof.
  intros H1 H2 H3 w o w' R.
  destruct (isPortInUse_cases port w)
    as [[_ [e H]] | [[p [_ [_ H]]] | [p [_ [_ H]]]]];
    rewrite H in R; injection R as <- <-.
  - apply extends_refl.
  - apply extends_note; auto.
  - exists [Listening (clock w) p; Closed p]. split.
    + cbn. rewrite <- app_assoc. reflexivity.
    + cbn. rewrite H1, H3. reflexivity.
Qed.

End Emits.

(** ** The dependency stage *)

Lemma isDependencyInstalled_resolvable (dependency : string) w :
  isDependencyInstalled dependency w = (Done (resolvable w dependency), w).
Proof.
  unfold isDependencyInstalled, try_catch, bind, require_resolve.
  destruct (resolvable w dependency); reflexivity.
Qed.

Lemma missing_dependencies (dependencies : list string) w :
  filterM (fun dep => installed <- isDependencyInstalled dep ;;
                      ret (negb installed)) dependencies w
  = (Done (missing_in w dependencies), w).
Proof.
  induction dependencies as [ | dep rest IH]; [ reflexivity | ].
  cbn [filterM]. unfold bind at 1. unfold bind at 1.
  rewrite isDependencyInstalled_resolvable. cbn [ret].
  unfold bind at 1. rewrite IH. cbn.
  destruct (resolvable w dep); reflexivity.
Qed.

Section DependencyFacts.

Variable ask : string -> M string.

Lemma installDependency_declined dep w answer w1 :
  ask (install_question dep) w = (Done answer, w1) ->
  String.eqb answer "yes" = false ->
  installDependency ask dep w = (Done (Some dep), w1).
Proof.
  intros A N. unfold installDependency.
  rewrite (bind_done _ _ _ _ _ A), N. reflexivity.
Qed.

Lemma installDependency_installed dep w w1 :
  ask (install_question dep) w = (Done "yes", w1) ->
  npm w1 ("npm install " ++ dep) = None ->
  installDependency ask dep w = (Done None, install_succeeded dep w1).
Proof.
  intros A N. unfold installDependency.
  rewrite (bind_done _ _ _ _ _ A). cbn [String.eqb Ascii.eqb Bool.eqb].
  unfold bind, try_catch, console_log, emit, execSync. cbn -[append].
  rewrite N. reflexivity.
Qed.

Lemma installDependency_failed dep w w1 reason :
  ask (install_question dep) w = (Done "yes", w1) ->
  npm w1 ("npm install " ++ dep) = Some reason ->
  installDependency ask dep w = (Done None, install_failed dep reason w1).
Proof.
  intros A N. unfold installDependency.
  rewrite (bind_done _ _ _ _ _ A). cbn [String.eqb Ascii.eqb Bool.eqb].
  unfold bind, try_catch, console_log, console_error, emit, execSync.
  cbn -[append]. rewrite N. reflexivity.
Qed.

(** C6.  When the answer is yes and the install command fails, the
    failure is caught and logged on the error console, [installDependency]
    returns null instead of throwing, and the loop goes on to the next
    missing name with the declined names unchanged. *)
Theorem install_failure_is_swallowed :
  forall (dep : string) (w w1 : World) (reason : string),
    ask (install_question dep) w = (Done "yes", w1) ->
    npm w1 ("npm install " ++ dep) = Some reason ->
    installDependency ask dep w = (Done None, install_failed dep reason w1)
    /\ trace (install_failed dep reason w1)
       = (trace w1 ++ [Log (Installing dep); Exec ("npm install " ++ dep);
                       LogError (InstallFailed dep reason)])%list
    /\ forall rest declined,
         installMissing ask (dep :: rest) declined w
         = installMissing ask rest declined (install_failed dep reason w1).
Proof.
  intros dep w w1 reason A N.
  pose proof (installDependency_failed dep w w1 reason A N) as R.
  split; [ exact R | split ].
  - cbn. rewrite <- !app_assoc. reflexivity.
  - intros rest declined. cbn [installMissing].
    rewrite (bind_done _ _ _ _ _ R). reflexivity.
Qed.

End DependencyFacts.

(** An install that fails, in both scripts. *)
Lemma install_failure_sample :
  fst (installDependency askUser "express"
         (sample_world_without_npm ["Yes"])) = Done None
  /\ fst (installDependency Legacy.askUser "express"
            (sample_world_without_npm ["Yes"])) = Done None.
Proof.
  split.
  - rewrite (proj1 (install_failure_is_swallowed askUser "express"
               (sample_world_without_npm ["Yes"]) _ "Command failed"
               eq_refl eq_refl)).
    reflexivity.
  - rewrite (proj1 (install_failure_is_swallowed Legacy.askUser "express"
               (sample_world_without_npm ["Yes"]) _ "Command failed"
               eq_refl eq_refl)).
    reflexivity.
Defined.

Lemma askUser_answers_in_order : answers_in_order askUser.
Proof.
  intros question w line rest H. exists (answered question rest w).
  exists [Question question]. rewrite (askUser_answer _ _ _ _ H).
  repeat split; reflexivity.
Qed.

Lemma legacy_askUser_answers_in_order : answers_in_order Legacy.askUser.
Proof.
  intros question w line rest H. unfold Legacy.askUser.
  unfold bind, createInterface, rl_close, emit, rl_question. cbn.
  rewrite H. eexists.
  exists [CreateInterface; Question question; CloseInterface].
  split; [ reflexivity | ]. cbn.
  repeat split; try reflexivity.
  rewrite <- !app_assoc. reflexivity.
Qed.

Section DeclinedNames.

Variable ask : string -> M string.
Hypothesis ask_ok : answers_in_order ask.

(** The loop over the missing names, when no name is empty and the
    operator answers every question: the names reported are the declined
    ones, and one question is asked per missing name, in order. *)
Lemma installMissing_declined (missing : list string) :
  forall (declined : list string) (w : World),
    forallb (fun dep => negb (is_empty dep)) missing = true ->
    (List.length missing <= List.length (stdin w))%nat ->
    exists w' events,
      installMissing ask missing declined w
      = (Done (declined
               ++ declined_names missing (map answer_of (stdin w)))%list, w')
      /\ trace w' = (trace w ++ events)%list
      /\ filter is_question events
         = map (fun dep => Question (install_question dep)) missing.
Proof.
  induction missing as [ | dep rest IH]; intros declined w NE LEN.
  - exists w, []. cbn. rewrite !app_nil_r. auto.
  - cbn in NE. apply andb_true_iff in NE. destruct NE as [NEd NEr].
    destruct (stdin w) as [ | line lines] eqn:IN; [ cbn in LEN; lia | ].
    cbn in LEN. apply le_S_n in LEN.
    destruct (ask_ok (install_question dep) w line lines IN)
      as [w1 [es1 [A [IN1 [NPM1 [T1 Q1]]]]]].
    cbn [map declined_names installMissing].
    destruct (String.eqb (answer_of line) "yes") eqn:YES.
    + apply String.eqb_eq in YES. rewrite YES in A.
      destruct (npm w1 ("npm install " ++ dep)) as [reason | ] eqn:N.
      * rewrite (bind_done _ _ _ _ _
                   (installDependency_failed ask dep w w1 reason A N)).
        destruct (IH declined (install_failed dep reason w1) NEr)
          as [w' [es [R [T Q]]]]; [ cbn; rewrite IN1; exact LEN | ].
        exists w'. eexists. cbn in R. rewrite IN1 in R.
        split; [ exact R | ]. split.
        -- rewrite T. cbn. rewrite T1, <- !app_assoc. reflexivity.
        -- rewrite filter_app. cbn. rewrite Q1, Q. reflexivity.
      * rewrite (bind_done _ _ _ _ _
                   (installDependency_installed ask dep w w1 A N)).
        destruct (IH declined (install_succeeded dep w1) NEr)
          as [w' [es [R [T Q]]]]; [ cbn; rewrite IN1; exact LEN | ].
        exists w'. eexists. cbn in R. rewrite IN1 in R.
        split; [ exact R | ]. split.
        -- rewrite T. cbn. rewrite T1, <- !app_assoc. reflexivity.
        -- rewrite filter_app. cbn. rewrite Q1, Q. reflexivity.
    + rewrite (bind_done _ _ _ _ _
                 (installDependency_declined ask dep w _ w1 A YES)).
      cbn [ToBoolean]. rewrite NEd.
      destruct (IH (declined ++ [dep])%list w1 NEr)
        as [w' [es [R [T Q]]]]; [ rewrite IN1; exact LEN | ].
      exists w'. eexists. rewrite IN1, <- app_assoc in R.
      split; [ exact R | ]. split.
      * rewrite T, T1, <- app_assoc. reflexivity.
      * rewrite filter_app, Q1, Q. reflexivity.
Qed.

(** The dependency stage on names none of which is empty: the operator is
    asked about the missing names only, in the order of the list, and the
    names reported are the missing names whose answer was not yes. *)
Lemma checkAndInstallDependencies_declined (dependencies : list string) w :
  forallb (fun dep => negb (is_empty dep)) (missing_in w dependencies) = true ->
  (List.length (missing_in w dependencies) <= List.length (stdin w))%nat ->
  exists w' events,
    checkAndInstallDependencies ask dependencies w
    = (Done (declined_names (missing_in w dependencies)
               (map answer_of (stdin w))), w')
    /\ trace w' = (trace w ++ events)%list
    /\ filter is_question events
       = map (fun dep => Question (install_question dep))
           (missing_in w dependencies).
Proof.
  intros NE LEN. unfold checkAndInstallDependencies.
  rewrite (bind_done _ _ _ _ _ (missing_dependencies dependencies w)).
  destruct (installMissing_declined (missing_in w dependencies) [] w NE LEN)
    as [w1 [es1 [R [T Q]]]].
  rewrite (bind_done _ _ _ _ _ R). cbn [app].
  set (names := declined_names _ _) in *.
  assert (LOGS : forall (l : list string) w2, exists es,
             forEach l (fun dep => console_log (ManualCommand dep)) w2
             = (Done tt, with_trace (trace w2 ++ es)%list w2)
             /\ filter is_question es = []).
  { induction l as [ | a l IHl]; intros w2.
    - exists []. cbn. rewrite app_nil_r. destruct w2; auto.
    - destruct (IHl (note (Log (ManualCommand a)) w2)) as [es [E F]].
      exists (Log (ManualCommand a) :: es). cbn [forEach].
      unfold bind at 1. unfold console_log at 1. unfold emit at 1.
      rewrite E. cbn. rewrite <- app_assoc. auto. }
  destruct (0 <? List.length names)%nat.
  - unfold bind at 1. unfold bind at 1. unfold console_log at 1 2 3.
    unfold emit at 1. unfold bind at 1. unfold emit at 1.
    unfold bind at 1. unfold emit at 1.
    destruct (LOGS names
                (note (Log ManualHeader)
                   (note (Log (DeclinedList names))
                      (note (Log NotInstalledHeader) w1)))) as [es [E F]].
    rewrite E. eexists.
    exists (es1 ++ [Log NotInstalledHeader; Log (DeclinedList names);
                    Log ManualHeader] ++ es)%list.
    split; [ reflexivity | ]. split.
    + cbn. rewrite T, <- !app_assoc. reflexivity.
    + rewrite !filter_app, Q, F. cbn [filter is_question app].
      apply app_nil_r.
  - eexists. exists (es1 ++ [Log AllInstalled])%list.
    split; [ reflexivity | ]. split.
    + cbn. rewrite T, <- !app_assoc. reflexivity.
    + rewrite filter_app, Q. cbn [filter is_question]. apply app_nil_r.
Qed.

End DeclinedNames.

(** The example of the specification: a is installed, b is not, and the
    operator declines b.  Only b is asked about, b is reported, and no
    command is run. *)
Example dependencies_a_b :
  checkAndInstallDependencies askUser ["a"; "b"] (sample_world_with_a ["no"])
  = (Done ["b"],
     with_trace [Question (install_question "b"); Log NotInstalledHeader;
                 Log (DeclinedList ["b"]); Log ManualHeader;
                 Log (ManualCommand "b")]
       (sample_world_with_a [])).
Proof. reflexivity. Qed.

(** Why the names are taken to be non-empty.  The scripts pass the one
    name express, and no package has the empty name.  Were the empty name
    passed, it would be missing and asked about, and an answer other than
    yes would not report it: [installDependency] returns the name itself,
    the empty string is falsy, and [if (declined)] drops it. *)
Example empty_name_is_not_reported :
  missing_in (sample_world ["no"] (fun _ => None)) [EmptyString]
  = [EmptyString]
  /\ declined_names [EmptyString] (map answer_of ["no"]) = [EmptyString]
  /\ checkAndInstallDependencies askUser [EmptyString]
       (sample_world ["no"] (fun _ => None))
     = (Done [],
        with_trace [Question (install_question EmptyString); Log AllInstalled]
          (sample_world [] (fun _ => None)))
  /\ fst (checkAndInstallDependencies Legacy.askUser [EmptyString]
            (sample_world ["no"] (fun _ => None)))
     = Done [].
Proof. repeat split; reflexivity. Qed.

(** ** The port stage *)

Section PortFacts.

Variable JSON_parse : string -> Result Value.
Variable number_text : Q -> string.

(** One iteration of the loop. *)
Lemma promptLoop_step (n : nat) (config : Value) w :
  promptLoop number_text (S n) config w =
  match stdin w with
  | [] => (Blocked, note (Question port_question) w)
  | line :: rest =>
      let w1 := answered port_question rest w in
      let newPort := Num (parseInt (answer_of line)) in
      if in_port_range (parseInt (answer_of line)) then
        match isPortInUse newPort w1 with
        | (Done true, w2) =>
            promptLoop number_text n config (note (Log PortInUse) w2)
        | (Done false, w2) =>
            match JSON_stringify number_text (set_port config newPort) 2 with
            | None =>
                (Thrown (Error "The data argument must be of type string"),
                 w2)
            | Some text =>
                match write_error w2 configPath with
                | Some reason => (Thrown (Error reason), w2)
                | None =>
                    (Done (Updated (set_port config newPort)),
                     note (Log (PortUpdated newPort))
                       (written configPath text w2))
                end
            end
        | (Thrown e, w2) => (Thrown e, w2)
        | (Blocked, w2) => (Blocked, w2)
        end
      else promptLoop number_text n config (note (Log InvalidPort) w1)
  end.
Proof.
  cbn [promptLoop]. unfold bind at 1.
  destruct (stdin w) as [ | line rest] eqn:IN.
  - rewrite (askUser_blocked _ _ IN). reflexivity.
  - rewrite (askUser_answer _ _ _ _ IN). cbn zeta.
    rewrite isPortValid_Num. unfold bind at 1. cbn [lift ret].
    destruct (in_port_range (parseInt (answer_of line))); cbn [negb].
    + unfold bind at 1.
      destruct (isPortInUse _ _) as [[[ | ] | e | ] w2]; try reflexivity.
      unfold bind at 1. unfold writeFileSync.
      destruct (JSON_stringify _ _ 2) as [text | ]; [ | reflexivity ].
      destruct (write_error w2 configPath); reflexivity.
    + reflexivity.
Qed.

(** The whole stage, by cases. *)
Lemma checkAndSetPort_cases w :
  checkAndSetPort JSON_parse number_text w =
  match files w configPath with
  | None =>
      (Done LoadFailed,
       note (LogError (ConfigReadFailed
               ("ENOENT: no such file or directory, open '"
                  ++ configPath ++ "'"))) w)
  | Some text =>
      match JSON_parse text with
      | Raise e =>
          (Done LoadFailed, note (LogError (ConfigReadFailed (message e))) w)
      | Ok config =>
          match get_port config with
          | Raise e => (Thrown e, w)
          | Ok port =>
              let prompt w1 :=
                promptLoop number_text (S (List.length (stdin w1))) config
                  (note (Log (PortInvalidOrInUse port)) w1) in
              if ToBoolean port then
                match isPortValid port with
                | Raise e => (Thrown e, w)
                | Ok false => prompt w
                | Ok true =>
                    match isPortInUse port w with
                    | (Done true, w1) => prompt w1
                    | (Done false, w1) =>
                        (Done (Unchanged config), note (Log (PortOk port)) w1)
                    | (Thrown e, w1) => (Thrown e, w1)
                    | (Blocked, w1) => (Blocked, w1)
                    end
                end
              else prompt w
          end
      end
  end.
Proof.
  unfold checkAndSetPort. unfold bind at 1.
  unfold try_catch, readFileSync. unfold bind at 1.
  destruct (files w configPath) as [text | ]; [ | reflexivity ].
  unfold bind at 1. destruct (JSON_parse text) as [config | e];
    [ | reflexivity ].
  cbn [lift ret]. unfold bind at 1.
  destruct (get_port config) as [port | e]; [ | reflexivity ].
  cbn [lift ret]. unfold bind at 1.
  destruct (ToBoolean port); cbn [negb].
  - unfold bind at 1. destruct (isPortValid port) as [[ | ] | e];
      cbn [lift ret throw negb]; try reflexivity.
    destruct (isPortInUse port w) as [[[ | ] | e | ] w1]; reflexivity.
  - reflexivity.
Qed.

Lemma valid_port_is_truthy (port : Value) :
  isPortValid port = Ok true -> ToBoolean port = true.
Proof.
  rewrite isPortValid_ToNumber. intros H.
  destruct port as [ | | [ | ] | [ | s | q] | s | items | fields];
    try discriminate H; try reflexivity.
  - cbn in H. injection H as H. apply andb_true_iff in H.
    destruct H as [H _]. apply Qle_bool_iff in H. cbn.
    destruct (Qeq_bool q 0) eqn:E; [ | reflexivity ].
    apply Qeq_bool_iff in E. rewrite E in H. unfold Qle in H. cbn in H. lia.
  - destruct s; [ discriminate H | reflexivity ].
Qed.

Lemma lookup_assign (key : string) (v : Value) fields :
  lookup key (assign key v fields) = Some v.
Proof.
  induction fields as [ | [k old] rest IH]; cbn.
  - rewrite String.eqb_refl. reflexivity.
  - destruct (String.eqb k key) eqn:E; cbn; rewrite E; auto.
Qed.



Lemma last_probe_listening (before after : list Event) t p :
  filter is_probe after = [] ->
  last_probe (before ++ Listening t p :: after) = Some (Listening t p).
Proof.
  intros H. unfold last_probe. rewrite filter_app. cbn [filter is_probe].
  rewrite H, map_app. cbn [map]. apply last_last.
Qed.

(** The loop returns only after a write: the candidate passed the
    validator, its probe found the port free, and the record with that
    port was written, once, as the last thing but the confirmation. *)
Lemma promptLoop_updated (n : nat) (config : Value) :
  forall w stage w',
    promptLoop number_text n config w = (Done stage, w') ->
    exists x p t text before,
      stage = Updated (set_port config (Num x))
      /\ in_port_range x = true
      /\ listen_port (Num x) = Some p
      /\ bound_elsewhere w t p = false
      /\ JSON_stringify number_text (set_port config (Num x)) 2 = Some text
      /\ trace w'
         = (trace w ++ before
              ++ [Listening t p; Closed p; Written configPath text;
                  Log (PortUpdated (Num x))])%list
      /\ filter is_write before = []
      /\ files w' configPath = Some text.
Proof.
  induction n as [ | n IH]; intros w stage w' R; [ discriminate R | ].
  rewrite promptLoop_step in R.
  destruct (stdin w) as [ | line rest] eqn:IN; [ discriminate R | ].
  cbn zeta in R.
  destruct (in_port_range (parseInt (answer_of line))) eqn:V.
  - destruct (isPortInUse_cases (Num (parseInt (answer_of line)))
                (answered port_question rest w))
      as [[_ [e H]] | [[p [L [B H]]] | [p [L [B H]]]]];
      rewrite H in R; [ discriminate R | | ].
    + apply IH in R.
      destruct R as [x [p' [t [text [before R]]]]].
      destruct R as [S1 [S2 [S3 [S4 [S5 [S6 [S7 S8]]]]]]].
      exists x, p', t, text.
      exists ([Question port_question; BindFailed (clock w) p;
               Log PortInUse] ++ before)%list.
      repeat split; try assumption.
      rewrite S6. cbn. rewrite <- !app_assoc. reflexivity.
    + destruct (JSON_stringify _ _ 2) as [text | ] eqn:J; [ | discriminate R ].
      destruct (write_error _ configPath); [ discriminate R | ].
      injection R as <- <-.
      assert (E : bound_elsewhere w (clock w) p = false).
      { unfold busy in B. cbn in B. apply orb_false_iff in B.
        destruct B as [B _]. apply orb_false_iff in B. apply B. }
      exists (parseInt (answer_of line)), p, (clock w), text.
      exists [Question port_question].
      repeat split; try assumption.
      cbn. rewrite <- !app_assoc. reflexivity.
  - apply IH in R.
    destruct R as [x [p' [t [text [before R]]]]].
    destruct R as [S1 [S2 [S3 [S4 [S5 [S6 [S7 S8]]]]]]].
    exists x, p', t, text.
    exists ([Question port_question; Log InvalidPort] ++ before)%list.
    repeat split; try assumption.
    rewrite S6. cbn. rewrite <- !app_assoc. reflexivity.
Qed.

(** The loop that does not return has written nothing. *)
Lemma promptLoop_stopped (n : nat) (config : Value) :
  forall w o w',
    promptLoop number_text n config w = (o, w') ->
    returned o = false ->
    files w' = files w
    /\ exists events,
         trace w' = (trace w ++ events)%list /\ filter is_write events = [].
Proof.
  induction n as [ | n IH]; intros w o w' R ND.
  - injection R as <- <-. split; [ reflexivity | ].
    exists []. rewrite app_nil_r. auto.
  - rewrite promptLoop_step in R.
    destruct (stdin w) as [ | line rest] eqn:IN.
    { injection R as <- <-. split; [ reflexivity | ].
      exists [Question port_question]. auto. }
    cbn zeta in R.
    destruct (in_port_range (parseInt (answer_of line))) eqn:V.
    + destruct (isPortInUse_cases (Num (parseInt (answer_of line)))
                  (answered port_question rest w))
        as [[_ [e H]] | [[p [L [B H]]] | [p [L [B H]]]]];
        rewrite H in R.
      * injection R as <- <-. split; [ reflexivity | ].
        exists [Question port_question]. auto.
      * apply IH in R; [ | exact ND ]. destruct R as [F [es [T W]]].
        split; [ exact F | ].
        exists ([Question port_question; BindFailed (clock w) p;
                 Log PortInUse] ++ es)%list.
        split.
        -- rewrite T. cbn. rewrite <- !app_assoc. reflexivity.
        -- rewrite filter_app, W. reflexivity.
      * assert (Q : exists events,
                   trace (probed_free p (answered port_question rest w))
                   = (trace w ++ events)%list
                   /\ filter is_write events = []).
        { exists [Question port_question; Listening (clock w) p; Closed p].
          split; [ cbn; rewrite <- !app_assoc | ]; reflexivity. }
        destruct (JSON_stringify _ _ 2) as [text | ].
        -- destruct (write_error _ configPath).
           ++ injection R as <- <-. split; [ reflexivity | exact Q ].
           ++ injection R as <- <-. discriminate ND.
        -- injection R as <- <-. split; [ reflexivity | exact Q ].
    + apply IH in R; [ | exact ND ]. destruct R as [F [es [T W]]].
      split; [ exact F | ].
      exists ([Question port_question; Log InvalidPort] ++ es)%list.
      split.
      * rewrite T. cbn. rewrite <- !app_assoc. reflexivity.
      * rewrite filter_app, W. reflexivity.
Qed.

(** One more iteration than the operator has lines is never started: the
    loop does not depend on its fuel once the fuel exceeds that number. *)
Lemma promptLoop_fuel (n : nat) (config : Value) :
  forall m w,
    (List.length (stdin w) < n)%nat -> (List.length (stdin w) < m)%nat ->
    promptLoop number_text n config w = promptLoop number_text m config w.
Proof.
  induction n as [ | n IH]; intros m w Hn Hm; [ lia | ].
  destruct m as [ | m]; [ lia | ].
  rewrite !promptLoop_step.
  destruct (stdin w) as [ | line rest] eqn:IN; [ reflexivity | ].
  cbn zeta. cbn in Hn, Hm.
  destruct (in_port_range (parseInt (answer_of line))).
  - destruct (isPortInUse_cases (Num (parseInt (answer_of line)))
                (answered port_question rest w))
      as [[_ [e H]] | [[p [L [B H]]] | [p [L [B H]]]]];
      rewrite H; try reflexivity.
    apply IH; cbn; lia.
  - apply IH; cbn; lia.
Qed.

End PortFacts.

Section PortStageRuns.

Variable JSON_parse : string -> Result Value.
Variable number_text : Q -> string.

(** The loop, entered from a world [w1] that the stage reached from [w]
    without a write: it returns after one write, or stops with none. *)
Lemma prompt_outcomes (config port : Value) (w w1 : World)
      (before1 : list Event) o w' :
  trace w1 = (trace w ++ before1)%list ->
  filter is_write before1 = [] ->
  files w1 = files w ->
  bound_elsewhere w1 = bound_elsewhere w ->
  promptLoop number_text (S (List.length (stdin w1))) config
    (note (Log (PortInvalidOrInUse port)) w1) = (o, w') ->
  (exists x p t data before,
      o = Done (Updated (set_port config (Num x)))
      /\ in_port_range x = true
      /\ listen_port (Num x) = Some p
      /\ bound_elsewhere w t p = false
      /\ JSON_stringify number_text (set_port config (Num x)) 2 = Some data
      /\ trace w'
         = (trace w ++ before
              ++ [Listening t p; Closed p; Written configPath data;
                  Log (PortUpdated (Num x))])%list
      /\ filter is_write before = []
      /\ files w' configPath = Some data)
  \/ (returned o = false /\ files w' = files w
      /\ exists events,
           trace w' = (trace w ++ events)%list
           /\ filter is_write events = []).
Proof.
  intros T W F E R. destruct o as [stage | e | ].
  - left. apply promptLoop_updated in R.
    destruct R as [x [p [t [data [before R]]]]].
    destruct R as [S1 [S2 [S3 [S4 [S5 [S6 [S7 S8]]]]]]].
    exists x, p, t, data.
    exists (before1 ++ [Log (PortInvalidOrInUse port)] ++ before)%list.
    repeat split; try assumption.
    + rewrite S1. reflexivity.
    + cbn in S4. rewrite E in S4. exact S4.
    + rewrite S6. cbn. rewrite T, <- !app_assoc. reflexivity.
    + rewrite !filter_app, W, S7. reflexivity.
  - right. apply promptLoop_stopped in R; [ | reflexivity ].
    destruct R as [F' [es [T' W']]]. split; [ reflexivity | ]. split.
    + rewrite F'. exact F.
    + exists (before1 ++ [Log (PortInvalidOrInUse port)] ++ es)%list. split.
      * rewrite T'. cbn. rewrite T, <- !app_assoc. reflexivity.
      * rewrite !filter_app, W, W'. reflexivity.
  - right. apply promptLoop_stopped in R; [ | reflexivity ].
    destruct R as [F' [es [T' W']]]. split; [ reflexivity | ]. split.
    + rewrite F'. exact F.
    + exists (before1 ++ [Log (PortInvalidOrInUse port)] ++ es)%list. split.
      * rewrite T'. cbn. rewrite T, <- !app_assoc. reflexivity.
      * rewrite !filter_app, W, W'. reflexivity.
Qed.

(** The four ways the stage can go: the load fails; the port is kept; a
    new port is written; or the stage does not return, and then it has
    written nothing. *)
Lemma checkAndSetPort_outcomes w o w' :
  checkAndSetPort JSON_parse number_text w = (o, w') ->
  (exists reason,
      o = Done LoadFailed
      /\ w' = note (LogError (ConfigReadFailed reason)) w)
  \/ (exists text config port p,
         files w configPath = Some text
         /\ JSON_parse text = Ok config
         /\ get_port config = Ok port
         /\ isPortValid port = Ok true
         /\ listen_port port = Some p
         /\ busy w p = false
         /\ o = Done (Unchanged config)
         /\ w' = note (Log (PortOk port)) (probed_free p w))
  \/ (exists text config x p t data before,
         files w configPath = Some text
         /\ JSON_parse text = Ok config
         /\ o = Done (Updated (set_port config (Num x)))
         /\ in_port_range x = true
         /\ listen_port (Num x) = Some p
         /\ bound_elsewhere w t p = false
         /\ JSON_stringify number_text (set_port config (Num x)) 2
            = Some data
         /\ trace w'
            = (trace w ++ before
                 ++ [Listening t p; Closed p; Written configPath data;
                     Log (PortUpdated (Num x))])%list
         /\ filter is_write before = []
         /\ files w' configPath = Some data)
  \/ (returned o = false /\ files w' = files w
      /\ exists events,
           trace w' = (trace w ++ events)%list
           /\ filter is_write events = []).
Proof.
  intros R. rewrite checkAndSetPort_cases in R.
  destruct (files w configPath) as [text | ] eqn:F.
  2:{ injection R as <- <-. left. eexists. split; reflexivity. }
  destruct (JSON_parse text) as [config | e] eqn:J.
  2:{ injection R as <- <-. left. eexists. split; reflexivity. }
  assert (STOP : forall (e : Exn),
             returned (@Thrown PortStage e) = false /\ files w = files w
             /\ exists events,
                  trace w = (trace w ++ events)%list
                  /\ filter is_write events = []).
  { intros e. repeat split. exists []. rewrite app_nil_r. auto. }
  destruct (get_port config) as [port | e] eqn:G.
  2:{ injection R as <- <-. right. right. right. apply STOP. }
  cbn zeta in R.
  assert (PROMPT : forall w1 before1,
             trace w1 = (trace w ++ before1)%list ->
             filter is_write before1 = [] ->
             files w1 = files w ->
             bound_elsewhere w1 = bound_elsewhere w ->
             promptLoop number_text (S (List.length (stdin w1))) config
               (note (Log (PortInvalidOrInUse port)) w1) = (o, w') ->
             (exists text0 config0 x p t data before,
                 Some text = Some text0
                 /\ JSON_parse text0 = Ok config0
                 /\ o = Done (Updated (set_port config0 (Num x)))
                 /\ in_port_range x = true
                 /\ listen_port (Num x) = Some p
                 /\ bound_elsewhere w t p = false
                 /\ JSON_stringify number_text (set_port config0 (Num x)) 2
                    = Some data
                 /\ trace w'
                    = (trace w ++ before
                         ++ [Listening t p; Closed p;
                             Written configPath data;
                             Log (PortUpdated (Num x))])%list
                 /\ filter is_write before = []
                 /\ files w' configPath = Some data)
             \/ (returned o = false /\ files w' = files w
                 /\ exists events,
                      trace w' = (trace w ++ events)%list
                      /\ filter is_write events = [])).
  { intros w1 before1 T W F1 E1 R1.
    destruct (prompt_outcomes config port w w1 before1 o w' T W F1 E1 R1)
      as [[x [p [t [data [before U]]]]] | S].
    - left. exists text, config, x, p, t, data, before. auto.
    - right. exact S. }
  destruct (ToBoolean port) eqn:TB.
  2:{ right. right. apply (PROMPT w []); auto.
      symmetry. apply app_nil_r. }
  destruct (isPortValid port) as [[ | ] | e] eqn:V.
  3:{ injection R as <- <-. right. right. right. apply STOP. }
  2:{ right. right. apply (PROMPT w []); auto.
      symmetry. apply app_nil_r. }
  destruct (isPortInUse_cases port w)
    as [[_ [e H]] | [[p [L [B H]]] | [p [L [B H]]]]];
    rewrite H in R.
  - injection R as <- <-. right. right. right. apply STOP.
  - right. right.
    apply (PROMPT (probed_busy p w) [BindFailed (clock w) p]); auto.
  - injection R as <- <-. right. left.
    exists text, config, port, p. auto 10.
Qed.

End PortStageRuns.

(** ** Numerals *)

Ltac z_false :=
  repeat match goal with
    | |- context [ (?a =? ?b) ] =>
        replace (a =? b) with false by (symmetry; apply Z.eqb_neq; lia)
    end.

Lemma all_from_spec (p : Z -> bool) (n : nat) :
  forall z, all_from n z p = true ->
  forall i, z <= i < z + Z.of_nat n -> p i = true.
Proof.
  induction n as [ | n IH]; intros z H i R; [ lia | ].
  cbn [all_from] in H. apply andb_true_iff in H. destruct H as [H0 H].
  destruct (Z.eq_dec i z) as [-> | NE]; [ exact H0 | ].
  apply (IH (z + 1) H). lia.
Qed.

Lemma ports_round_to_themselves :
  all_from (Z.to_nat 65535) 1 rounds_to_itself = true.
Proof. vm_compute. reflexivity. Qed.

(** Every integer from 1 to 65535 is a binary64 value. *)
Lemma round_double_port (z : Z) :
  1 <= z <= 65535 -> round_double (inject_Z z * 1) = of_Z z.
Proof.
  intros R.
  assert (H : rounds_to_itself z = true).
  { apply (all_from_spec _ _ _ ports_round_to_themselves). lia. }
  unfold rounds_to_itself in H.
  destruct (round_double (inject_Z z * 1)) as [ | s | [n d]];
    try discriminate H.
  apply andb_true_iff in H. destruct H as [H1 H2].
  apply Z.eqb_eq in H1. apply Pos.eqb_eq in H2. cbn in H1, H2. subst.
  reflexivity.
Qed.

Lemma digit_code (c : ascii) : is_decimal_digit c = true -> 48 <= code c <= 57.
Proof.
  unfold is_decimal_digit. intros H. apply andb_true_iff in H.
  destruct H as [H1 H2]. apply Z.leb_le in H1, H2. lia.
Qed.

Lemma digit_is_not_ws (c : ascii) :
  is_decimal_digit c = true -> is_ws c = false.
Proof.
  intros H. apply digit_code in H. unfold is_ws. cbn zeta. z_false.
  replace (code c <=? 13) with false by (symmetry; apply Z.leb_gt; lia).
  rewrite andb_false_r. reflexivity.
Qed.

Lemma digit_in_decimal (c : ascii) :
  is_decimal_digit c = true -> digit_in 10 c = Some (code c - 48).
Proof.
  intros H. apply digit_code in H. unfold digit_in. cbn zeta.
  replace (48 <=? code c) with true by (symmetry; apply Z.leb_le; lia).
  replace (code c <=? 57) with true by (symmetry; apply Z.leb_le; lia).
  cbn [andb].
  replace (code c - 48 <? 10) with true by (symmetry; apply Z.ltb_lt; lia).
  reflexivity.
Qed.

Lemma trimEnd_digits (s : string) : all_digits s = true -> trimEnd s = s.
Proof.
  induction s as [ | c r IH]; [ reflexivity | ].
  cbn [all_digits trimEnd]. intros H. apply andb_true_iff in H.
  destruct H as [Hc Hr]. rewrite (digit_is_not_ws c Hc), IH by assumption.
  reflexivity.
Qed.

Lemma trim_numeral (s : string) : decimal_numeral s = true -> trim s = s.
Proof.
  unfold decimal_numeral. intros H. apply andb_true_iff in H.
  destruct H as [NE D]. unfold trim.
  destruct s as [ | c r]; [ discriminate NE | ].
  cbn [trimStart]. pose proof D as D'. cbn [all_digits] in D'.
  apply andb_true_iff in D'. destruct D' as [Hc _].
  rewrite (digit_is_not_ws c Hc). apply trimEnd_digits. exact D.
Qed.

Lemma digits_prefix_digits (s : string) :
  all_digits s = true -> snd (digits_prefix 10 s) = EmptyString.
Proof.
  induction s as [ | c r IH]; [ reflexivity | ].
  cbn [all_digits digits_prefix]. intros H. apply andb_true_iff in H.
  destruct H as [Hc Hr]. rewrite (digit_in_decimal c Hc).
  destruct (digits_prefix 10 r) as [ds rest]. cbn in *. auto.
Qed.

(** A string of decimal digits that denotes a port converts to that
    port. *)
Lemma StringToNumber_numeral (s : string) :
  decimal_numeral s = true -> 1 <= decimal_value s <= 65535 ->
  StringToNumber s = of_Z (decimal_value s).
Proof.
  intros N R. unfold StringToNumber. rewrite (trim_numeral s N).
  unfold decimal_numeral in N. apply andb_true_iff in N. destruct N as [NE D].
  destruct s as [ | c r]; [ discriminate NE | ]. cbn [is_empty].
  pose proof D as D'. cbn [all_digits] in D'. apply andb_true_iff in D'.
  destruct D' as [Hc Hr]. pose proof (digit_code c Hc) as Cc.
  assert (ND : non_decimal (String c r) = None).
  { unfold non_decimal. destruct r as [ | c' r']; [ reflexivity | ].
    cbn [all_digits] in Hr. apply andb_true_iff in Hr. destruct Hr as [Hc' _].
    apply digit_code in Hc'. cbn zeta. z_false. cbn [orb].
    change (0 =? 0) with true. cbn [negb]. rewrite andb_false_r.
    reflexivity. }
  rewrite ND.
  assert (SP : sign_prefix (String c r) = (false, String c r)).
  { unfold sign_prefix. z_false. reflexivity. }
  rewrite SP. cbn [signed]. unfold unsigned_decimal.
  assert (INF : String.eqb (String c r) "Infinity" = false).
  { cbn [String.eqb]. destruct (Ascii.eqb_spec c "I"); [ | reflexivity ].
    subst c. discriminate Hc. }
  rewrite INF. unfold decimal_value in *.
  pose proof (digits_prefix_digits _ D) as P.
  destruct (digits_prefix 10 (String c r)) as [ds rest] eqn:DP.
  cbn [fst snd] in *. subst rest. rewrite app_nil_r.
  destruct ds as [ | d ds].
  { cbn [digits_prefix] in DP. rewrite (digit_in_decimal c Hc) in DP.
    destruct (digits_prefix 10 r); discriminate DP. }
  cbn [exponent_part List.length Z.of_nat].
  change (pow10 (0 - 0)) with 1%Q.
  apply round_double_port. exact R.
Qed.

Lemma listen_port_numeral (s : string) :
  decimal_numeral s = true -> 1 <= decimal_value s <= 65535 ->
  listen_port (Str s) = Some (decimal_value s).
Proof.
  intros N R. unfold listen_port.
  rewrite (trim_numeral s N), (StringToNumber_numeral s N R).
  unfold decimal_numeral in N. apply andb_true_iff in N. destruct N as [NE _].
  destruct (is_empty s); [ discriminate NE | ].
  unfold of_Z, inject_Z. cbn [Qnum Qden].
  rewrite Z.mod_1_r, Z.div_1_r. cbn [Z.eqb andb].
  replace (0 <=? decimal_value s) with true by (symmetry; apply Z.leb_le; lia).
  replace (decimal_value s <=? 65535) with true
    by (symmetry; apply Z.leb_le; lia).
  reflexivity.
Qed.

Lemma parseInt_without_digits (answer : string) :
  leading_digits answer = [] -> parseInt answer = NaN.
Proof.
  unfold leading_digits, parseInt.
  destruct (sign_prefix (trimStart answer)) as [negative s]. cbn [snd].
  destruct (digits_prefix 10 s) as [ds rest]. cbn [fst]. intros ->.
  reflexivity.
Qed.

(** ** The port stage: what it guarantees *)

Section PortStageProperties.

Variable JSON_parse : string -> Result Value.
Variable number_text : Q -> string.

(** C2, amended.  On a file that holds a record, when the stage returns,
    the file holds the text of a record: the text as it was when the port
    is kept, the serialisation of the updated record when a new port is
    written.  The port of that record passes [isPortValid], and the last
    bind attempt of the stage was on that port and succeeded: at that
    attempt no other process held it. *)
Theorem final_port_is_valid_and_was_free :
  forall (w : World) (text : string) (fields : list (string * Value))
         (stage : PortStage) (w' : World),
    files w configPath = Some text ->
    JSON_parse text = Ok (Obj fields) ->
    checkAndSetPort JSON_parse number_text w = (Done stage, w') ->
    exists fields' port p t events data,
      final_config stage = Some (Obj fields')
      /\ files w' configPath = Some data
      /\ match stage with
         | Unchanged _ => data = text /\ fields' = fields
         | Updated _ =>
             JSON_stringify number_text (Obj fields') 2 = Some data
         | LoadFailed => False
         end
      /\ lookup "port" fields' = Some port
      /\ isPortValid port = Ok true
      /\ listen_port port = Some p
      /\ trace w' = (trace w ++ events)%list
      /\ last_probe events = Some (Listening t p)
      /\ bound_elsewhere w t p = false.
Proof.
  intros w text fields stage w' F J R.
  rewrite checkAndSetPort_cases, F, J in R. cbn [get_port] in R.
  cbn zeta in R.
  destruct (lookup "port" fields) as [port | ] eqn:LP.
  2:{ cbn [ToBoolean] in R.
      destruct (prompt_outcomes number_text (Obj fields) Undefined w w []
                  (Done stage) w') as [U | [ND _]];
        [ symmetry; apply app_nil_r | reflexivity | reflexivity
        | reflexivity | exact R | | discriminate ND ].
      destruct U as [x [p [t [data [before U]]]]].
      destruct U as [O [V [L [E [S [T [_ F']]]]]]]. injection O as ->.
      exists (assign "port" (Num x) fields), (Num x), p, t.
      exists (before ++ [Listening t p; Closed p; Written configPath data;
                         Log (PortUpdated (Num x))])%list, data.
      repeat split; try assumption.
      - apply lookup_assign.
      - rewrite isPortValid_Num, V. reflexivity.
      - apply last_probe_listening. reflexivity. }
  assert (PROMPT : forall w1 before1,
             trace w1 = (trace w ++ before1)%list ->
             filter is_write before1 = [] ->
             files w1 = files w ->
             bound_elsewhere w1 = bound_elsewhere w ->
             promptLoop number_text (S (List.length (stdin w1))) (Obj fields)
               (note (Log (PortInvalidOrInUse port)) w1) = (Done stage, w') ->
             exists fields' port p t events data,
               final_config stage = Some (Obj fields')
               /\ files w' configPath = Some data
               /\ match stage with
                  | Unchanged _ => data = text /\ fields' = fields
                  | Updated _ =>
                      JSON_stringify number_text (Obj fields') 2 = Some data
                  | LoadFailed => False
                  end
               /\ lookup "port" fields' = Some port
               /\ isPortValid port = Ok true
               /\ listen_port port = Some p
               /\ trace w' = (trace w ++ events)%list
               /\ last_probe events = Some (Listening t p)
               /\ bound_elsewhere w t p = false).
  { intros w1 before1 T W F1 E1 R1.
    destruct (prompt_outcomes number_text (Obj fields) port w w1 before1
                (Done stage) w' T W F1 E1 R1) as [U | [ND _]];
      [ | discriminate ND ].
    destruct U as [x [p [t [data [before U]]]]].
    destruct U as [O [V [L [E [S [T' [_ F']]]]]]]. injection O as ->.
    exists (assign "port" (Num x) fields), (Num x), p, t.
    exists (before ++ [Listening t p; Closed p; Written configPath data;
                       Log (PortUpdated (Num x))])%list, data.
    repeat split; try assumption.
    - apply lookup_assign.
    - rewrite isPortValid_Num, V. reflexivity.
    - apply last_probe_listening. reflexivity. }
  destruct (ToBoolean port) eqn:TB.
  2:{ apply (PROMPT w []); auto. symmetry. apply app_nil_r. }
  destruct (isPortValid port) as [[ | ] | e] eqn:V; [ | | discriminate R ].
  2:{ apply (PROMPT w []); auto. symmetry. apply app_nil_r. }
  destruct (isPortInUse_cases port w)
    as [[_ [e H]] | [[p [L [B H]]] | [p [L [B H]]]]];
    rewrite H in R.
  - discriminate R.
  - apply (PROMPT (probed_busy p w) [BindFailed (clock w) p]); auto.
  - injection R as <- <-.
    exists fields, port, p, (clock w).
    exists [Listening (clock w) p; Closed p; Log (PortOk port)], text.
    repeat split; try assumption.
    + cbn. rewrite <- !app_assoc. reflexivity.
    + unfold busy in B. apply orb_false_iff in B. destruct B as [B _].
      apply orb_false_iff in B. apply B.
Qed.

(** C9, amended.  An answer with no decimal digit at its start (after
    white space and a sign) parses to NaN, which fails the validator; and
    whenever the parsed answer fails the validator, the notice of an
    invalid port is printed and the loop asks again, nothing written. *)
Theorem invalid_answer_repeats_the_question :
  (forall answer : string,
      leading_digits answer = [] ->
      parseInt answer = NaN
      /\ isPortValid (Num (parseInt answer)) = Ok false)
  /\ (forall (n : nat) (config : Value) (w : World) (line : string)
             (rest : list string),
        stdin w = line :: rest ->
        isPortValid (Num (parseInt (answer_of line))) = Ok false ->
        promptLoop number_text (S n) config w
        = promptLoop number_text n config
            (note (Log InvalidPort) (answered port_question rest w))
        /\ files (note (Log InvalidPort) (answered port_question rest w))
           = files w
        /\ trace (note (Log InvalidPort) (answered port_question rest w))
           = (trace w ++ [Question port_question; Log InvalidPort])%list).
Proof.
  split.
  - intros answer H. rewrite (parseInt_without_digits answer H).
    split; reflexivity.
  - intros n config w line rest IN V. rewrite promptLoop_step, IN.
    cbn zeta. rewrite isPortValid_Num in V. injection V as ->.
    repeat split. cbn. rewrite <- app_assoc. reflexivity.
Qed.

(** C7.  When the file cannot be read or its text cannot be parsed, the
    stage logs the failure on the error console and returns: no question,
    no write, no exception.  The script then closes the interface and
    ends as usual, and what the dependency stage did stands. *)
Theorem load_failure_ends_the_port_stage_only :
  forall w : World,
    (files w configPath = None
     \/ exists text e,
          files w configPath = Some text /\ JSON_parse text = Raise e) ->
    exists reason,
      checkAndSetPort JSON_parse number_text w
      = (Done LoadFailed, note (LogError (ConfigReadFailed reason)) w)
      /\ stdin (note (LogError (ConfigReadFailed reason)) w) = stdin w
      /\ files (note (LogError (ConfigReadFailed reason)) w) = files w
      /\ trace (note (LogError (ConfigReadFailed reason)) w)
         = (trace w ++ [LogError (ConfigReadFailed reason)])%list
      /\ forall (dependencies : list string) (w0 : World)
                (declined : list string),
           checkAndInstallDependencies askUser dependencies
             (note CreateInterface w0) = (Done declined, w) ->
           main JSON_parse number_text dependencies w0
           = (Done tt,
              note CloseInterface
                (note (LogError (ConfigReadFailed reason)) w)).
Proof.
  intros w H.
  assert (R : exists reason,
             checkAndSetPort JSON_parse number_text w
             = (Done LoadFailed,
                note (LogError (ConfigReadFailed reason)) w)).
  { rewrite checkAndSetPort_cases.
    destruct H as [F | [text [e [F J]]]]; rewrite F; [ | rewrite J ];
      eexists; reflexivity. }
  destruct R as [reason R]. exists reason.
  repeat split; try assumption.
  intros dependencies w0 declined D. unfold main.
  unfold bind at 1. unfold createInterface at 1. unfold emit at 1.
  rewrite (bind_done _ _ _ _ _ D), (bind_done _ _ _ _ _ R). reflexivity.
Qed.

(** C10.  A port that is a string of decimal digits denoting a number
    from 1 to 65535 is truthy, passes [isPortValid] by coercion, and is
    a port [listen] accepts; so when the probe finds that port free the
    stage prints the confirmation and ends with the record unchanged, the
    port still a string, after no question and no write. *)
Theorem numeral_string_port_is_kept :
  forall (w : World) (text : string) (config : Value) (s : string),
    files w configPath = Some text ->
    JSON_parse text = Ok config ->
    get_port config = Ok (Str s) ->
    decimal_numeral s = true ->
    1 <= decimal_value s <= 65535 ->
    ToBoolean (Str s) = true
    /\ isPortValid (Str s) = Ok true
    /\ listen_port (Str s) = Some (decimal_value s)
    /\ (free w (decimal_value s) ->
        checkAndSetPort JSON_parse number_text w
        = (Done (Unchanged config),
           note (Log (PortOk (Str s))) (probed_free (decimal_value s) w))
        /\ get_port config = Ok (Str s)
        /\ stdin (note (Log (PortOk (Str s)))
                    (probed_free (decimal_value s) w)) = stdin w
        /\ files (note (Log (PortOk (Str s)))
                    (probed_free (decimal_value s) w)) = files w
        /\ trace (note (Log (PortOk (Str s)))
                    (probed_free (decimal_value s) w))
           = (trace w ++ [Listening (clock w) (decimal_value s);
                          Closed (decimal_value s);
                          Log (PortOk (Str s))])%list).
Proof.
  intros w text config s F J G N R.
  assert (V : isPortValid (Str s) = Ok true).
  { rewrite isPortValid_ToNumber. cbn [ToNumber and_then].
    rewrite (StringToNumber_numeral s N R), in_port_range_of_Z.
    f_equal. apply andb_true_iff. split; apply Z.leb_le; lia. }
  pose proof (listen_port_numeral s N R) as L.
  split; [ apply valid_port_is_truthy; exact V | ].
  split; [ exact V | ]. split; [ exact L | ].
  intros B. split; [ | repeat split; try assumption ].
  - rewrite checkAndSetPort_cases, F, J, G. cbn zeta.
    rewrite (valid_port_is_truthy _ V), V.
    rewrite (isPortInUse_free _ _ _ L B). reflexivity.
  - cbn. rewrite <- !app_assoc. reflexivity.
Qed.

End PortStageProperties.

(** ** The port stage: what it leaves alone *)

Section Frame.

Variable JSON_parse : string -> Result Value.
Variable number_text : Q -> string.






End Frame.

(** ** The readline interface *)

Create HintDb emits.

#[local] Hint Resolve emits_ret emits_throw emits_lift emits_bind
  emits_try_catch emits_if emits_emit emits_rl_question emits_require_resolve
  emits_execSync emits_readFileSync emits_writeFileSync emits_isPortInUse
  : emits.

#[local] Hint Extern 1 (stage_event _ = true) => reflexivity : emits.

#[local] Hint Unfold console_log console_error : emits.

Lemma no_session_events (events : list Event) :
  forallb stage_event events = true -> session_events events = [].
Proof.
  induction events as [ | e rest IH]; [ reflexivity | ].
  cbn [forallb session_events filter]. intros H.
  apply andb_true_iff in H. destruct H as [He Hr].
  unfold stage_event in He. destruct (is_session e); [ discriminate He | ].
  apply IH. exact Hr.
Qed.

Lemma stage_askUser (question : string) :
  emits_only stage_event (askUser question).
Proof. unfold askUser. auto with emits. Qed.

Lemma stage_isDependencyInstalled (dependency : string) :
  emits_only stage_event (isDependencyInstalled dependency).
Proof. unfold isDependencyInstalled. auto 6 with emits. Qed.

Lemma stage_filterM {A} (keep : A -> M bool) (l : list A) :
  (forall a, emits_only stage_event (keep a)) ->
  emits_only stage_event (filterM keep l).
Proof.
  intros K. induction l as [ | a rest IH]; cbn [filterM]; auto with emits.
Qed.

Lemma stage_installDependency (dep : string) :
  emits_only stage_event (installDependency askUser dep).
Proof.
  unfold installDependency. apply emits_bind; [ apply stage_askUser | ].
  intros answer. apply emits_if; [ | auto with emits ].
  apply emits_bind; [ | auto with emits ].
  apply emits_try_catch; unfold console_log, console_error;
    auto 6 with emits.
Qed.

Lemma stage_installMissing (missing : list string) :
  forall declined,
    emits_only stage_event (installMissing askUser missing declined).
Proof.
  induction missing as [ | dep rest IH]; intros declined;
    cbn [installMissing]; [ auto with emits | ].
  apply emits_bind; [ apply stage_installDependency | ]. intros d. apply IH.
Qed.

Lemma stage_forEach {A} (l : list A) (f : A -> M unit) :
  (forall a, emits_only stage_event (f a)) ->
  emits_only stage_event (forEach l f).
Proof.
  intros F. induction l as [ | a rest IH]; cbn [forEach]; auto with emits.
Qed.

Lemma stage_checkAndInstallDependencies (dependencies : list string) :
  emits_only stage_event (checkAndInstallDependencies askUser dependencies).
Proof.
  unfold checkAndInstallDependencies. apply emits_bind.
  - apply stage_filterM. intros dep.
    apply emits_bind; [ apply stage_isDependencyInstalled | auto with emits ].
  - intros missing. apply emits_bind; [ apply stage_installMissing | ].
    intros declined. apply emits_bind; [ | auto with emits ].
    apply emits_if; unfold console_log; [ | auto with emits ].
    repeat (apply emits_bind; [ auto with emits | intros _ ]).
    apply stage_forEach. intros dep. auto with emits.
Qed.

Section Interface.

Variable JSON_parse : string -> Result Value.
Variable number_text : Q -> string.

Lemma stage_promptLoop (n : nat) (config : Value) :
  emits_only stage_event (promptLoop number_text n config).
Proof.
  induction n as [ | n IH]; cbn [promptLoop].
  - intros w o w' R. injection R as <- <-. apply extends_refl.
  - apply emits_bind; [ apply stage_askUser | ]. intros answer. cbn zeta.
    apply emits_bind; [ auto with emits | ]. intros valid.
    apply emits_if; unfold console_log; [ auto with emits | ].
    apply emits_bind; [ auto with emits | ]. intros inUse.
    apply emits_if; auto 6 with emits.
Qed.

Lemma stage_checkAndSetPort :
  emits_only stage_event (checkAndSetPort JSON_parse number_text).
Proof.
  unfold checkAndSetPort. apply emits_bind; [ auto 8 with emits | ].
  intros [config | e]; unfold console_log, console_error;
    [ | auto with emits ].
  apply emits_bind; [ auto with emits | ]. intros port.
  apply emits_bind.
  - apply emits_if; [ auto with emits | ].
    apply emits_bind; [ auto with emits | ]. intros valid.
    apply emits_if; auto with emits.
  - intros rejected. apply emits_if; [ | auto with emits ].
    apply emits_bind; [ auto with emits | ]. intros _.
    intros w o w' R. exact (stage_promptLoop _ _ _ _ _ R).
Qed.

(** C8.  The script creates one readline interface, as its first act,
    whatever the number of questions.  A run closes it once, as its last
    act, when the dependency stage and the port stage have both completed;
    any other run never closes it. *)
Theorem one_interface_closed_once :
  forall (dependencies : list string) (w : World) (o : Outcome unit)
         (w' : World),
    main JSON_parse number_text dependencies w = (o, w') ->
    exists stages,
      session_events stages = []
      /\ trace w'
         = (trace w ++ CreateInterface :: stages
              ++ (if returned o then [CloseInterface] else []))%list
      /\ session_events
           (CreateInterface :: stages
              ++ (if returned o then [CloseInterface] else []))%list
         = (CreateInterface
              :: (if returned o then [CloseInterface] else []))%list
      /\ (returned o = true <->
          exists declined w1 stage w2,
            checkAndInstallDependencies askUser dependencies
              (note CreateInterface w) = (Done declined, w1)
            /\ checkAndSetPort JSON_parse number_text w1 = (Done stage, w2)).
Proof.
  intros dependencies w o w' R.
  assert (SE : forall stages (closing : list Event),
             session_events stages = [] ->
             session_events (CreateInterface :: stages ++ closing)%list
             = CreateInterface :: session_events closing).
  { intros stages closing H. unfold session_events in *.
    cbn [filter is_session]. rewrite filter_app, H. reflexivity. }
  unfold main in R. unfold bind at 1 in R.
  unfold createInterface at 1 in R. unfold emit at 1 in R.
  unfold bind at 1 in R.
  destruct (checkAndInstallDependencies askUser dependencies
              (note CreateInterface w)) as [o1 w1] eqn:D.
  destruct (stage_checkAndInstallDependencies _ _ _ _ D) as [es1 [T1 S1]].
  apply no_session_events in S1. cbn in T1.
  destruct o1 as [declined | e | ].
  2,3: injection R as <- <-; exists es1; cbn [returned];
    rewrite app_nil_r; repeat split;
    [ exact S1 | rewrite T1, <- app_assoc; reflexivity
    | rewrite <- (app_nil_r es1), SE by exact S1; reflexivity
    | discriminate
    | intros [declined [w3 [stage [w4 [D' _]]]]]; discriminate D' ].
  unfold bind at 1 in R.
  destruct (checkAndSetPort JSON_parse number_text w1) as [o2 w2] eqn:P.
  destruct (stage_checkAndSetPort _ _ _ P) as [es2 [T2 S2]].
  apply no_session_events in S2.
  assert (S12 : session_events (es1 ++ es2) = []).
  { unfold session_events in *. rewrite filter_app, S1, S2. reflexivity. }
  destruct o2 as [stage | e | ].
  2,3: injection R as <- <-; exists (es1 ++ es2)%list; cbn [returned];
    rewrite app_nil_r; repeat split;
    [ exact S12 | rewrite T2, T1, <- !app_assoc; reflexivity
    | rewrite <- (app_nil_r (es1 ++ es2)), SE by exact S12; reflexivity
    | discriminate
    | intros [declined' [w3 [stage [w4 [D' P']]]]];
      injection D' as <- <-; rewrite P in P'; discriminate P' ].
  injection R as <- <-. exists (es1 ++ es2)%list. cbn [returned].
  repeat split.
  - exact S12.
  - cbn. rewrite T2, T1, <- !app_assoc. reflexivity.
  - rewrite SE by exact S12. reflexivity.
  - exists declined, w1, stage, w2. split; [ reflexivity | exact P ].
Qed.

End Interface.

(** The earlier script creates an interface for each question, and closes it
    when the answer arrives. *)
Example legacy_interface_per_question :
  session_events
    (trace (snd (Legacy.main ["a"; "b"]
                   (sample_world ["no"; "yes"] (fun _ => None)))))
  = [CreateInterface; CloseInterface; CreateInterface; CloseInterface].
Proof. reflexivity. Qed.

(** ** Sample runs *)

(** The scenario of the specification: the port 80000 is out of range, the
    operator enters 99999, which is rejected, then 3000, which is free; two
    questions are asked and the file ends with port 3000 and the other
    field. *)
Example port_80000_then_99999_then_3000 :
  fst (sample_stage sample_config ["99999"; "3000"])
  = Done (Updated sample_config_with_port)
  /\ filter is_question (trace (snd (sample_stage sample_config
                                       ["99999"; "3000"])))
     = [Question port_question; Question port_question]
  /\ files (snd (sample_stage sample_config ["99999"; "3000"])) configPath
     = Some ("{" ++ newline
               ++ "  " ++ dq ++ "port" ++ dq ++ ": 3000," ++ newline
               ++ "  " ++ dq ++ "otherField" ++ dq ++ ": " ++ dq ++ "x" ++ dq
               ++ newline ++ "}").
Proof. repeat split; vm_compute; reflexivity. Qed.

(** C2, as the claim states it, fails.  The file holds the array [1, 2]
    and the operator enters 3000, a free port: the stage ends with an
    update and prints that the port was updated to 3000, but an array takes
    no port.  The file holds the array as it was loaded, and the port of
    the configuration at the end is undefined, which is not valid. *)
Lemma array_config_stores_no_port :
  fst (sample_stage (Arr [Num (of_Z 1); Num (of_Z 2)]) ["3000"])
  = Done (Updated (Arr [Num (of_Z 1); Num (of_Z 2)]))
  /\ In (Log (PortUpdated (Num (of_Z 3000))))
       (trace (snd (sample_stage (Arr [Num (of_Z 1); Num (of_Z 2)])
                      ["3000"])))
  /\ files (snd (sample_stage (Arr [Num (of_Z 1); Num (of_Z 2)]) ["3000"]))
       configPath
     = Some ("[" ++ newline ++ "  1," ++ newline ++ "  2" ++ newline ++ "]")
  /\ get_port (Arr [Num (of_Z 1); Num (of_Z 2)]) = Ok Undefined
  /\ isPortValid Undefined = Ok false.
Proof.
  split; [ vm_compute; reflexivity | ].
  split; [ vm_compute; auto 10 | ].
  repeat split; vm_compute; reflexivity.
Qed.

(** In the scenario of the specification the file holds the record with
    port 3000, which is valid and was free when probed. *)
Lemma final_port_sample :
  exists fields' port p t events data,
    final_config (Updated sample_config_with_port) = Some (Obj fields')
    /\ files (snd (sample_stage sample_config ["99999"; "3000"])) configPath
       = Some data
    /\ JSON_stringify sample_number_text (Obj fields') 2 = Some data
    /\ lookup "port" fields' = Some port
    /\ isPortValid port = Ok true
    /\ listen_port port = Some p
    /\ trace (snd (sample_stage sample_config ["99999"; "3000"]))
       = (trace (sample_world ["99999"; "3000"] (only_config "config"))
            ++ events)%list
    /\ last_probe events = Some (Listening t p)
    /\ bound_elsewhere
         (sample_world ["99999"; "3000"] (only_config "config")) t p = false.
Proof.
  apply (final_port_is_valid_and_was_free
           (sample_parse "config" sample_config) sample_number_text
           (sample_world ["99999"; "3000"] (only_config "config"))
           "config" [("port", Num (of_Z 80000)); ("otherField", Str "x")]
           (Updated sample_config_with_port)).
  - reflexivity.
  - reflexivity.
  - vm_compute. reflexivity.
Defined.


(** A missing file ends the port stage, and the script goes on to its
    end. *)
Lemma load_failure_sample :
  exists reason,
    checkAndSetPort (sample_parse "config" sample_config) sample_number_text
      (note (Log AllInstalled) (note CreateInterface
                                  (sample_world [] (fun _ => None))))
    = (Done LoadFailed,
       note (LogError (ConfigReadFailed reason))
         (note (Log AllInstalled)
            (note CreateInterface (sample_world [] (fun _ => None)))))
    /\ main (sample_parse "config" sample_config) sample_number_text []
         (sample_world [] (fun _ => None))
       = (Done tt,
          note CloseInterface
            (note (LogError (ConfigReadFailed reason))
               (note (Log AllInstalled)
                  (note CreateInterface (sample_world [] (fun _ => None)))))).
Proof.
  destruct (load_failure_ends_the_port_stage_only
              (sample_parse "config" sample_config) sample_number_text
              (note (Log AllInstalled)
                 (note CreateInterface (sample_world [] (fun _ => None))))
              (or_introl eq_refl))
    as [reason [R [_ [_ [_ M]]]]].
  exists reason. split; [ exact R | ]. apply (M [] _ []). reflexivity.
Defined.

(** C9, as the claim states it, fails: the answer 80abc is no numeral, and
    [parseInt] reads the port 80 from it, which passes the validator; no
    notice is printed and the port 80 is written. *)
Lemma answer_80abc_is_written :
  numeric_input (answer_of "80abc") = false
  /\ StringToNumber (answer_of "80abc") = NaN
  /\ parseInt (answer_of "80abc") = of_Z 80
  /\ isPortValid (Num (parseInt (answer_of "80abc"))) = Ok true
  /\ fst (sample_stage sample_config ["80abc"])
     = Done (Updated (Obj [("port", Num (of_Z 80)); ("otherField", Str "x")]))
  /\ filter is_invalid_notice (trace (snd (sample_stage sample_config
                                             ["80abc"]))) = []
  /\ files (snd (sample_stage sample_config ["80abc"])) configPath
     = Some ("{" ++ newline
               ++ "  " ++ dq ++ "port" ++ dq ++ ": 80," ++ newline
               ++ "  " ++ dq ++ "otherField" ++ dq ++ ": " ++ dq ++ "x" ++ dq
               ++ newline ++ "}").
Proof. repeat split; vm_compute; reflexivity. Qed.

(** An answer with no digit is asked again. *)
Lemma invalid_answer_sample :
  (parseInt "abc" = NaN /\ isPortValid (Num (parseInt "abc")) = Ok false)
  /\ promptLoop sample_number_text 2 sample_config
       (sample_world ["abc"; "3000"] (only_config "config"))
     = promptLoop sample_number_text 1 sample_config
         (note (Log InvalidPort)
            (answered port_question ["3000"]
               (sample_world ["abc"; "3000"] (only_config "config")))).
Proof.
  split.
  - apply (proj1 (invalid_answer_repeats_the_question sample_number_text)).
    reflexivity.
  - apply (proj2 (invalid_answer_repeats_the_question sample_number_text)
             1%nat sample_config
             (sample_world ["abc"; "3000"] (only_config "config"))
             "abc" ["3000"]); reflexivity.
Defined.

(** The port "3000", a text, is kept as it is. *)
Lemma numeral_string_port_sample :
  isPortValid (Str "3000") = Ok true
  /\ sample_stage sample_config_with_text []
     = (Done (Unchanged sample_config_with_text),
        note (Log (PortOk (Str "3000")))
          (probed_free 3000 (sample_world [] (only_config "config")))).
Proof.
  destruct (numeral_string_port_is_kept
              (sample_parse "config" sample_config_with_text)
              sample_number_text
              (sample_world [] (only_config "config")) "config"
              sample_config_with_text "3000"
              eq_refl eq_refl eq_refl eq_refl)
    as [_ [V [_ K]]].
  - unfold decimal_value. cbn. lia.
  - split; [ exact V | ]. apply K. reflexivity.
Defined.

(** The script of the scenario creates one interface and closes it once. *)
Lemma one_interface_sample :
  exists stages,
    session_events stages = []
    /\ trace (snd (bootupchecks (sample_parse "config" sample_config)
                     sample_number_text
                     (sample_world ["no"; "99999"; "3000"]
                        (only_config "config"))))
       = CreateInterface :: (stages ++ [CloseInterface])%list.
Proof.
  destruct (one_interface_closed_once
              (sample_parse "config" sample_config) sample_number_text
              requiredDeps
              (sample_world ["no"; "99999"; "3000"] (only_config "config"))
              (Done tt)
              (snd (bootupchecks (sample_parse "config" sample_config)
                      sample_number_text
                      (sample_world ["no"; "99999"; "3000"]
                         (only_config "config")))))
    as [stages [S [T _]]].
  - vm_compute. reflexivity.
  - exists stages. split; [ exact S | exact T ].
Defined.

(** * Further properties *)

(** ** The dependency stage, run to its end *)

Lemma askUser_asks_once : asks_once askUser.
Proof.
  intros question w. destruct (stdin w) as [ | line rest] eqn:IN.
  - eexists. apply askUser_blocked. exact IN.
  - exists (answered question rest w), [Question question].
    rewrite (askUser_answer _ _ _ _ IN). repeat split; reflexivity.
Qed.

Lemma legacy_askUser_asks_once : asks_once Legacy.askUser.
Proof.
  intros question w. unfold Legacy.askUser.
  unfold bind, createInterface, rl_close, emit, rl_question. cbn.
  destruct (stdin w) as [ | line rest].
  - eexists. reflexivity.
  - eexists. exists [CreateInterface; Question question; CloseInterface].
    split; [ reflexivity | ]. cbn. repeat split; try reflexivity.
    rewrite <- !app_assoc. reflexivity.
Qed.

Lemma missing_in_nil (dependencies : list string) w :
  forallb (resolvable w) dependencies = true -> missing_in w dependencies = [].
Proof.
  unfold missing_in. induction dependencies as [ | dep rest IH];
    [ reflexivity | ].
  cbn. intros H. apply andb_true_iff in H. destruct H as [Hd Hr].
  rewrite Hd. cbn. apply IH. exact Hr.
Qed.

(** The summary that ends the dependency stage. *)
Lemma summary_run (names : list string) w :
  exists events,
    ((if (0 <? List.length names)%nat then
        console_log NotInstalledHeader ;;
        console_log (DeclinedList names) ;;
        console_log ManualHeader ;;
        forEach names (fun dep => console_log (ManualCommand dep))
      else console_log AllInstalled) ;; ret names) w
    = (Done names, with_trace (trace w ++ events)%list w)
    /\ forallb (fun e => match e with Log _ => true | _ => false end) events
       = true.
Proof.
  assert (LOGS : forall (l : list string) w2, exists es,
             forEach l (fun dep => console_log (ManualCommand dep)) w2
             = (Done tt, with_trace (trace w2 ++ es)%list w2)
             /\ forallb (fun e => match e with Log _ => true | _ => false end)
                  es = true).
  { induction l as [ | a l IHl]; intros w2.
    - exists []. cbn. rewrite app_nil_r. destruct w2; auto.
    - destruct (IHl (note (Log (ManualCommand a)) w2)) as [es [E F]].
      exists (Log (ManualCommand a) :: es). cbn [forEach].
      unfold bind at 1. unfold console_log at 1. unfold emit at 1.
      rewrite E. cbn. rewrite <- app_assoc. auto. }
  destruct (0 <? List.length names)%nat.
  - destruct (LOGS names
                (note (Log ManualHeader)
                   (note (Log (DeclinedList names))
                      (note (Log NotInstalledHeader) w)))) as [es [E F]].
    exists ([Log NotInstalledHeader; Log (DeclinedList names);
             Log ManualHeader] ++ es)%list.
    unfold bind at 1. unfold bind at 1. unfold console_log at 1 2 3.
    unfold emit at 1. unfold bind at 1. unfold emit at 1.
    unfold bind at 1. unfold emit at 1. rewrite E. split.
    + cbn. rewrite <- !app_assoc. reflexivity.
    + cbn. exact F.
  - exists [Log AllInstalled]. split; reflexivity.
Qed.

Section DependencyRuns.

Variable ask : string -> M string.
Hypothesis ask_once : asks_once ask.

(** The loop over the missing names, the operator answering all of them. *)
Lemma installMissing_answered (missing : list string) :
  forall (declined : list string) (w : World),
    (List.length missing <= List.length (stdin w))%nat ->
    exists w' events,
      installMissing ask missing declined w
      = (Done (declined
               ++ reported_names missing (map answer_of (stdin w)))%list, w')
      /\ stdin w' = skipn (List.length missing) (stdin w)
      /\ trace w' = (trace w ++ events)%list
      /\ filter is_question events
         = map (fun dep => Question (install_question dep)) missing
      /\ filter is_exec events
         = map (fun dep => Exec (install_command dep))
             (accepted_names missing (map answer_of (stdin w))).
Proof.
  induction missing as [ | dep rest IH]; intros declined w LEN.
  - exists w, []. cbn. rewrite !app_nil_r. auto.
  - pose proof (ask_once (install_question dep) w) as A.
    destruct (stdin w) as [ | line lines] eqn:IN; [ cbn in LEN; lia | ].
    cbn in LEN. apply le_S_n in LEN.
    destruct A as [w1 [es1 [A [IN1 [NPM1 [T1 [Q1 K1]]]]]]].
    cbn [map declined_names accepted_names installMissing skipn List.length].
    unfold reported_names. cbn [map declined_names].
    destruct (String.eqb (answer_of line) "yes") eqn:YES.
    + apply String.eqb_eq in YES. rewrite YES in A.
      destruct (npm w1 ("npm install " ++ dep)) as [reason | ] eqn:N.
      * rewrite (bind_done _ _ _ _ _
                   (installDependency_failed ask dep w w1 reason A N)).
        destruct (IH declined (install_failed dep reason w1))
          as [w' [es [R [I [T [Q X]]]]]]; [ cbn; rewrite IN1; exact LEN | ].
        exists w'.
        exists (es1 ++ [Log (Installing dep); Exec (install_command dep);
                        LogError (InstallFailed dep reason)] ++ es)%list.
        cbn in R, I. rewrite IN1 in R, I.
        split; [ exact R | ]. split; [ exact I | ]. split; [ | split ].
        -- rewrite T. cbn. rewrite T1, <- !app_assoc. reflexivity.
        -- rewrite !filter_app, Q1, Q. reflexivity.
        -- rewrite !filter_app, K1, X. cbn in *. rewrite IN1. reflexivity.
      * rewrite (bind_done _ _ _ _ _
                   (installDependency_installed ask dep w w1 A N)).
        destruct (IH declined (install_succeeded dep w1))
          as [w' [es [R [I [T [Q X]]]]]]; [ cbn; rewrite IN1; exact LEN | ].
        exists w'.
        exists (es1 ++ [Log (Installing dep); Exec (install_command dep);
                        Log (Installed dep)] ++ es)%list.
        cbn in R, I. rewrite IN1 in R, I.
        split; [ exact R | ]. split; [ exact I | ]. split; [ | split ].
        -- rewrite T. cbn. rewrite T1, <- !app_assoc. reflexivity.
        -- rewrite !filter_app, Q1, Q. reflexivity.
        -- rewrite !filter_app, K1, X. cbn in *. rewrite IN1. reflexivity.
    + rewrite (bind_done _ _ _ _ _
                 (installDependency_declined ask dep w _ w1 A YES)).
      cbn [ToBoolean filter].
      destruct (is_empty dep) eqn:EMPTY; cbn [negb].
      * destruct (IH declined w1) as [w' [es [R [I [T [Q X]]]]]];
          [ rewrite IN1; exact LEN | ].
        exists w', (es1 ++ es)%list. rewrite IN1 in R, I, X.
        split; [ exact R | ]. split; [ exact I | ]. split; [ | split ].
        -- rewrite T, T1, <- app_assoc. reflexivity.
        -- rewrite filter_app, Q1, Q. reflexivity.
        -- rewrite filter_app, K1, X. reflexivity.
      * destruct (IH (declined ++ [dep])%list w1) as [w' [es [R [I [T [Q X]]]]]];
          [ rewrite IN1; exact LEN | ].
        exists w', (es1 ++ es)%list. rewrite IN1 in R, I, X.
        rewrite <- app_assoc in R.
        split; [ exact R | ]. split; [ exact I | ]. split; [ | split ].
        -- rewrite T, T1, <- app_assoc. reflexivity.
        -- rewrite filter_app, Q1, Q. reflexivity.
        -- rewrite filter_app, K1, X. reflexivity.
Qed.

(** The loop over the missing names, the operator's lines running out. *)
Lemma installMissing_blocked (missing : list string) :
  forall (declined : list string) (w : World),
    (List.length (stdin w) < List.length missing)%nat ->
    exists w', installMissing ask missing declined w = (Blocked, w').
Proof.
  induction missing as [ | dep rest IH]; intros declined w LEN;
    [ cbn in LEN; lia | ].
  pose proof (ask_once (install_question dep) w) as A.
  cbn [installMissing].
  destruct (stdin w) as [ | line lines] eqn:IN.
  - destruct A as [w1 A]. exists w1. unfold installDependency.
    rewrite (bind_blocked _ _ _ _ (bind_blocked _ _ _ _ A)). reflexivity.
  - cbn in LEN. apply PeanoNat.lt_S_n in LEN.
    destruct A as [w1 [es1 [A [IN1 [NPM1 _]]]]].
    destruct (String.eqb (answer_of line) "yes") eqn:YES.
    + apply String.eqb_eq in YES. rewrite YES in A.
      destruct (npm w1 ("npm install " ++ dep)) as [reason | ] eqn:N.
      * rewrite (bind_done _ _ _ _ _
                   (installDependency_failed ask dep w w1 reason A N)).
        apply IH. cbn. rewrite IN1. exact LEN.
      * rewrite (bind_done _ _ _ _ _
                   (installDependency_installed ask dep w w1 A N)).
        apply IH. cbn. rewrite IN1. exact LEN.
    + rewrite (bind_done _ _ _ _ _
                 (installDependency_declined ask dep w _ w1 A YES)).
      apply IH. rewrite IN1. exact LEN.
Qed.

(** X1.  The dependency stage of either script, for any list of names, the
    operator answering every question: one question per missing name, in
    the order of the list; one install command per name answered yes, in
    that order, whether the command succeeds or not; and the names
    reported are the non-empty missing names whose answer was not yes.
    The lines answered are consumed, the others left. *)
Theorem dependency_stage_answered :
  forall (dependencies : list string) (w : World),
    (List.length (missing_in w dependencies) <= List.length (stdin w))%nat ->
    exists w' events,
      checkAndInstallDependencies ask dependencies w
      = (Done (reported_names (missing_in w dependencies)
                 (map answer_of (stdin w))), w')
      /\ stdin w'
         = skipn (List.length (missing_in w dependencies)) (stdin w)
      /\ trace w' = (trace w ++ events)%list
      /\ filter is_question events
         = map (fun dep => Question (install_question dep))
             (missing_in w dependencies)
      /\ filter is_exec events
         = map (fun dep => Exec (install_command dep))
             (accepted_names (missing_in w dependencies)
                (map answer_of (stdin w))).
Proof.
  intros dependencies w LEN. unfold checkAndInstallDependencies.
  rewrite (bind_done _ _ _ _ _ (missing_dependencies dependencies w)).
  destruct (installMissing_answered (missing_in w dependencies) [] w LEN)
    as [w1 [es1 [R [I [T [Q X]]]]]].
  rewrite (bind_done _ _ _ _ _ R). cbn [app].
  destruct (summary_run
              (reported_names (missing_in w dependencies)
                 (map answer_of (stdin w))) w1) as [es2 [S L]].
  rewrite S. exists (with_trace (trace w1 ++ es2)%list w1).
  exists (es1 ++ es2)%list.
  assert (NQ : filter is_question es2 = [] /\ filter is_exec es2 = []).
  { clear S. induction es2 as [ | e es2 IH2]; [ auto | ].
    cbn in L. destruct e; try discriminate L. cbn. apply IH2. exact L. }
  destruct NQ as [NQ NX].
  split; [ reflexivity | ]. split; [ exact I | ]. split; [ | split ].
  - cbn. rewrite T, <- app_assoc. reflexivity.
  - rewrite filter_app, Q, NQ. apply app_nil_r.
  - rewrite filter_app, X, NX. apply app_nil_r.
Qed.

(** X2.  The dependency stage never throws: it returns when the operator
    has a line for every missing name, and is blocked on a question
    otherwise. *)
Theorem dependency_stage_returns_or_waits :
  forall (dependencies : list string) (w : World),
    fst (checkAndInstallDependencies ask dependencies w)
    = if (List.length (missing_in w dependencies)
            <=? List.length (stdin w))%nat
      then Done (reported_names (missing_in w dependencies)
                   (map answer_of (stdin w)))
      else Blocked.
Proof.
  intros dependencies w.
  destruct (Nat.leb_spec (List.length (missing_in w dependencies))
              (List.length (stdin w))) as [LEN | LEN].
  - unfold checkAndInstallDependencies.
    rewrite (bind_done _ _ _ _ _ (missing_dependencies dependencies w)).
    destruct (installMissing_answered (missing_in w dependencies) [] w LEN)
      as [w1 [es1 [R _]]].
    rewrite (bind_done _ _ _ _ _ R). cbn [app].
    destruct (summary_run
                (reported_names (missing_in w dependencies)
                   (map answer_of (stdin w))) w1) as [es2 [S _]].
    rewrite S. reflexivity.
  - unfold checkAndInstallDependencies.
    rewrite (bind_done _ _ _ _ _ (missing_dependencies dependencies w)).
    destruct (installMissing_blocked (missing_in w dependencies) [] w LEN)
      as [w1 R].
    rewrite (bind_blocked _ _ _ _ R). reflexivity.
Qed.

(** X3.  When every name resolves, the stage asks nothing and runs
    nothing: it prints that all dependencies are installed, and that is
    all. *)
Theorem nothing_missing_nothing_asked :
  forall (dependencies : list string) (w : World),
    forallb (resolvable w) dependencies = true ->
    checkAndInstallDependencies ask dependencies w
    = (Done [], note (Log AllInstalled) w).
Proof.
  intros dependencies w H. unfold checkAndInstallDependencies.
  rewrite (bind_done _ _ _ _ _ (missing_dependencies dependencies w)).
  rewrite (missing_in_nil _ _ H). reflexivity.
Qed.

End DependencyRuns.

(** ** The names the operator declined *)



Section DeclinedReported.

Variable ask : string -> M string.
Hypothesis ask_once : asks_once ask.


End DeclinedReported.


(** ** The two scripts compared *)

Lemma forget_note_stage (e : Event) w :
  stage_event e = true ->
  forget_sessions (note e w) = note e (forget_sessions w).
Proof.
  intros H. unfold forget_sessions, note, with_trace. cbn.
  rewrite filter_app. cbn. rewrite H. reflexivity.
Qed.

Lemma forget_note_session (e : Event) w :
  is_session e = true -> forget_sessions (note e w) = forget_sessions w.
Proof.
  intros H. unfold forget_sessions, note, with_trace, stage_event. cbn.
  rewrite filter_app. cbn. rewrite H. cbn. rewrite app_nil_r. reflexivity.
Qed.

Lemma forget_with_stdin (lines : list string) w :
  forget_sessions (with_stdin lines w) = with_stdin lines (forget_sessions w).
Proof. reflexivity. Qed.

Lemma forget_stdin w1 w2 :
  forget_sessions w1 = forget_sessions w2 -> stdin w1 = stdin w2.
Proof. intros H. exact (f_equal stdin H). Qed.

Lemma forget_resolvable w1 w2 :
  forget_sessions w1 = forget_sessions w2 -> resolvable w1 = resolvable w2.
Proof. intros H. exact (f_equal resolvable H). Qed.

Lemma forget_npm w1 w2 :
  forget_sessions w1 = forget_sessions w2 -> npm w1 = npm w2.
Proof. intros H. exact (f_equal npm H). Qed.

Lemma similar_ret {A} (a : A) : similar (ret a) (ret a).
Proof. intros w1 w2 H. split; [ reflexivity | exact H ]. Qed.

Lemma similar_bind {A B} (m1 m2 : M A) (k1 k2 : A -> M B) :
  similar m1 m2 -> (forall a, similar (k1 a) (k2 a)) ->
  similar (bind m1 k1) (bind m2 k2).
Proof.
  intros Hm Hk w1 w2 H. unfold bind. destruct (Hm w1 w2 H) as [O W].
  destruct (m1 w1) as [[a1 | e1 | ] v1], (m2 w2) as [[a2 | e2 | ] v2];
    cbn [fst snd] in *; try discriminate O.
  - injection O as <-. apply Hk. exact W.
  - injection O as <-. split; [ reflexivity | exact W ].
  - split; [ reflexivity | exact W ].
Qed.

Lemma similar_try_catch {A} (b1 b2 : M A) (h1 h2 : Exn -> M A) :
  similar b1 b2 -> (forall e, similar (h1 e) (h2 e)) ->
  similar (try_catch b1 h1) (try_catch b2 h2).
Proof.
  intros Hb Hh w1 w2 H. unfold try_catch. destruct (Hb w1 w2 H) as [O W].
  destruct (b1 w1) as [[a1 | e1 | ] v1], (b2 w2) as [[a2 | e2 | ] v2];
    cbn [fst snd] in *; try discriminate O.
  - split; [ exact O | exact W ].
  - injection O as <-. apply Hh. exact W.
  - split; [ reflexivity | exact W ].
Qed.

Lemma similar_emit (e : Event) :
  stage_event e = true -> similar (emit e) (emit e).
Proof.
  intros S w1 w2 H. split; [ reflexivity | ]. cbn [emit snd].
  rewrite !forget_note_stage by exact S. rewrite H. reflexivity.
Qed.

Lemma similar_require_resolve (name : string) :
  similar (require_resolve name) (require_resolve name).
Proof.
  intros w1 w2 H. unfold require_resolve.
  rewrite (forget_resolvable _ _ H).
  destruct (resolvable w2 name); split; try reflexivity; exact H.
Qed.

Lemma similar_execSync (command : string) :
  similar (execSync command) (execSync command).
Proof.
  intros w1 w2 H. unfold execSync. cbn zeta. rewrite (forget_npm _ _ H).
  destruct (npm w2 command); (split; [ reflexivity | ]); cbn [snd];
    rewrite !forget_note_stage by reflexivity; rewrite H; reflexivity.
Qed.

Lemma legacy_askUser_run (question : string) w :
  Legacy.askUser question w
  = match stdin w with
    | line :: rest =>
        (Done (answer_of line),
         note CloseInterface
           (with_stdin rest (note (Question question)
                               (note CreateInterface w))))
    | [] => (Blocked, note (Question question) (note CreateInterface w))
    end.
Proof.
  unfold Legacy.askUser, bind, createInterface, rl_close, emit, rl_question.
  cbn. destruct (stdin w); reflexivity.
Qed.

(** The two [askUser] agree up to the interface that the earlier one
    creates and closes. *)
Lemma similar_askUser (question : string) :
  similar (Legacy.askUser question) (askUser question).
Proof.
  intros w1 w2 H. rewrite legacy_askUser_run.
  pose proof (forget_stdin _ _ H) as IN. rewrite IN.
  destruct (stdin w2) as [ | line rest] eqn:IN2.
  - rewrite (askUser_blocked _ _ IN2). split; [ reflexivity | ].
    cbn [snd]. rewrite !(forget_note_stage (Question question)) by reflexivity.
    rewrite (forget_note_session CreateInterface) by reflexivity.
    rewrite H. reflexivity.
  - rewrite (askUser_answer _ _ _ _ IN2). split; [ reflexivity | ].
    cbn [snd]. unfold answered.
    rewrite (forget_note_session CloseInterface) by reflexivity.
    rewrite !forget_with_stdin.
    rewrite !(forget_note_stage (Question question)) by reflexivity.
    rewrite (forget_note_session CreateInterface) by reflexivity.
    rewrite H. reflexivity.
Qed.

Lemma similar_filterM {A} (keep : A -> M bool) (l : list A) :
  (forall a, similar (keep a) (keep a)) ->
  similar (filterM keep l) (filterM keep l).
Proof.
  intros K. induction l as [ | a rest IH]; cbn [filterM].
  - apply similar_ret.
  - apply similar_bind; [ apply K | ]. intros k.
    apply similar_bind; [ exact IH | ]. intros kept. apply similar_ret.
Qed.

Lemma similar_forEach {A} (l : list A) (f : A -> M unit) :
  (forall a, similar (f a) (f a)) -> similar (forEach l f) (forEach l f).
Proof.
  intros F. induction l as [ | a rest IH]; cbn [forEach].
  - apply similar_ret.
  - apply similar_bind; [ apply F | ]. intros _. exact IH.
Qed.

Lemma similar_installDependency (dep : string) :
  similar (installDependency Legacy.askUser dep) (installDependency askUser dep).
Proof.
  unfold installDependency. apply similar_bind; [ apply similar_askUser | ].
  intros answer. destruct (String.eqb answer "yes"); [ | apply similar_ret ].
  apply similar_bind; [ | intros _; apply similar_ret ].
  apply similar_try_catch.
  - unfold console_log.
    apply similar_bind; [ apply similar_emit; reflexivity | ]. intros _.
    apply similar_bind; [ apply similar_execSync | ]. intros _.
    apply similar_emit. reflexivity.
  - intros e. apply similar_emit. reflexivity.
Qed.

Lemma similar_installMissing (missing : list string) :
  forall declined,
    similar (installMissing Legacy.askUser missing declined)
            (installMissing askUser missing declined).
Proof.
  induction missing as [ | dep rest IH]; intros declined;
    cbn [installMissing]; [ apply similar_ret | ].
  apply similar_bind; [ apply similar_installDependency | ].
  intros d. apply IH.
Qed.

(** X4.  The dependency stage of the earlier script does what the merged
    one does, but for the interface it creates and closes around each
    question: from the same world both end the same way, with the same
    names reported, and in worlds that differ only in the events on
    readline interfaces. *)
Theorem earlier_script_agrees_with_merged :
  forall (dependencies : list string) (w : World),
    fst (Legacy.main dependencies w)
    = fst (checkAndInstallDependencies askUser dependencies w)
    /\ forget_sessions (snd (Legacy.main dependencies w))
       = forget_sessions
           (snd (checkAndInstallDependencies askUser dependencies w)).
Proof.
  intros dependencies w.
  assert (S : similar (Legacy.main dependencies)
                (checkAndInstallDependencies askUser dependencies)).
  { unfold Legacy.main, checkAndInstallDependencies. apply similar_bind.
    - apply similar_filterM. intros dep. apply similar_bind.
      + unfold isDependencyInstalled. apply similar_try_catch.
        * apply similar_bind; [ apply similar_require_resolve | ].
          intros _. apply similar_ret.
        * intros _. apply similar_ret.
      + intros installed. apply similar_ret.
    - intros missing.
      apply similar_bind; [ apply similar_installMissing | ].
      intros declined. apply similar_bind; [ | intros _; apply similar_ret ].
      unfold console_log. destruct (0 <? List.length declined)%nat.
      + repeat (apply similar_bind;
                [ apply similar_emit; reflexivity | intros _ ]).
        apply similar_forEach. intros dep. apply similar_emit. reflexivity.
      + apply similar_emit. reflexivity. }
  apply S. reflexivity.
Qed.

(** ** The interfaces of the earlier script *)

Lemma interfaces_S (k : nat) :
  interfaces (S k) = CreateInterface :: CloseInterface :: interfaces k.
Proof. reflexivity. Qed.

Lemma legacy_installMissing_interfaces (missing : list string) :
  forall (declined : list string) (w : World) (o : Outcome (list string))
         (w' : World),
    installMissing Legacy.askUser missing declined w = (o, w') ->
    (List.length (stdin w') <= List.length (stdin w))%nat
    /\ exists events,
         trace w' = (trace w ++ events)%list
         /\ session_events events
            = (interfaces (List.length (stdin w) - List.length (stdin w'))
                 ++ (if returned o then [] else [CreateInterface]))%list
         /\ List.length (filter is_question events)
            = (List.length (stdin w) - List.length (stdin w')
               + (if returned o then 0 else 1))%nat.
Proof.
  induction missing as [ | dep rest IH]; intros declined w o w' R.
  - injection R as <- <-. split; [ lia | ]. exists [].
    rewrite Nat.sub_diag, app_nil_r. auto.
  - cbn [installMissing] in R.
    pose proof (legacy_askUser_run (install_question dep) w) as A.
    destruct (stdin w) as [ | line lines] eqn:IN.
    + unfold installDependency in R.
      rewrite (bind_blocked _ _ _ _ (bind_blocked _ _ _ _ A)) in R.
      injection R as <- <-. cbn [stdin trace note with_trace returned].
      rewrite IN. split; [ cbn; lia | ].
      exists [CreateInterface; Question (install_question dep)].
      rewrite <- !app_assoc. auto.
    + assert (STEP : forall w2 logs d,
                 stdin w2 = lines ->
                 trace w2
                 = (trace w ++ [CreateInterface;
                                Question (install_question dep);
                                CloseInterface] ++ logs)%list ->
                 session_events logs = [] ->
                 filter is_question logs = [] ->
                 installMissing Legacy.askUser rest d w2 = (o, w') ->
                 (List.length (stdin w') <= S (List.length lines))%nat
                 /\ exists events,
                      trace w' = (trace w ++ events)%list
                      /\ session_events events
                         = (interfaces (S (List.length lines)
                                        - List.length (stdin w'))
                              ++ (if returned o then []
                                  else [CreateInterface]))%list
                      /\ List.length (filter is_question events)
                         = (S (List.length lines) - List.length (stdin w')
                            + (if returned o then 0 else 1))%nat).
      { intros w2 logs d I2 T2 S2 Q2 R2. apply IH in R2.
        destruct R2 as [LE [es [T [SE Q]]]]. rewrite I2 in LE, SE, Q.
        split; [ lia | ].
        exists ([CreateInterface; Question (install_question dep);
                 CloseInterface] ++ logs ++ es)%list.
        split; [ rewrite T, T2, <- !app_assoc; reflexivity | ].
        replace (S (List.length lines) - List.length (stdin w'))%nat
          with (S (List.length lines - List.length (stdin w')))%nat by lia.
        split.
        - unfold session_events in *. cbn [app filter is_session].
          rewrite filter_app, S2, SE. reflexivity.
        - cbn [app filter is_question]. rewrite filter_app, Q2.
          cbn [app List.length]. rewrite Q. reflexivity. }
      cbn [List.length].
      destruct (String.eqb (answer_of line) "yes") eqn:YES.
      * apply String.eqb_eq in YES. rewrite YES in A.
        destruct (npm w ("npm install " ++ dep)) as [reason | ] eqn:N.
        -- rewrite (bind_done _ _ _ _ _
                      (installDependency_failed _ dep w _ reason A N)) in R.
           refine (STEP _ [Log (Installing dep); Exec ("npm install " ++ dep);
                           LogError (InstallFailed dep reason)] _ _ _ _ _ R);
             [ reflexivity | cbn; rewrite <- !app_assoc; reflexivity
             | reflexivity | reflexivity ].
        -- rewrite (bind_done _ _ _ _ _
                      (installDependency_installed _ dep w _ A N)) in R.
           refine (STEP _ [Log (Installing dep); Exec ("npm install " ++ dep);
                           Log (Installed dep)] _ _ _ _ _ R);
             [ reflexivity | cbn; rewrite <- !app_assoc; reflexivity
             | reflexivity | reflexivity ].
      * rewrite (bind_done _ _ _ _ _
                   (installDependency_declined _ dep w _ _ A YES)) in R.
        refine (STEP _ [] _ _ _ _ _ R);
          [ reflexivity | cbn; rewrite <- !app_assoc; reflexivity
          | reflexivity | reflexivity ].
Qed.

(** X5.  In the earlier script every question has an interface of its own:
    in any run of its dependency stage the events on interfaces are a
    creation and a close for each line the operator gave, followed by one
    more creation when the run is blocked on a question; and as many
    questions are asked as interfaces are created. *)
Theorem earlier_script_interface_per_question :
  forall (dependencies : list string) (w : World)
         (o : Outcome (list string)) (w' : World),
    Legacy.main dependencies w = (o, w') ->
    (List.length (stdin w') <= List.length (stdin w))%nat
    /\ exists events,
         trace w' = (trace w ++ events)%list
         /\ session_events events
            = (interfaces (List.length (stdin w) - List.length (stdin w'))
                 ++ (if returned o then [] else [CreateInterface]))%list
         /\ List.length (filter is_question events)
            = (List.length (stdin w) - List.length (stdin w')
               + (if returned o then 0 else 1))%nat.
Proof.
  intros dependencies w o w' R.
  unfold Legacy.main, checkAndInstallDependencies in R.
  rewrite (bind_done _ _ _ _ _ (missing_dependencies dependencies w)) in R.
  unfold bind at 1 in R.
  destruct (installMissing Legacy.askUser (missing_in w dependencies) [] w)
    as [o1 w1] eqn:L.
  apply legacy_installMissing_interfaces in L.
  destruct L as [LE [es1 [T [S Q]]]].
  destruct o1 as [declined | e | ].
  - destruct (summary_run declined w1) as [es2 [E F]].
    rewrite E in R. injection R as <- <-. cbn [stdin with_trace returned].
    split; [ exact LE | ]. exists (es1 ++ es2)%list.
    assert (N : session_events es2 = [] /\ filter is_question es2 = []).
    { clear E. induction es2 as [ | e es2 IH2]; [ auto | ].
      cbn in F. destruct e; try discriminate F. cbn. apply IH2. exact F. }
    destruct N as [NS NQ]. cbn [returned] in S, Q.
    split; [ cbn; rewrite T, <- app_assoc; reflexivity | ]. split.
    + unfold session_events in *. rewrite filter_app, S, NS.
      rewrite !app_nil_r. reflexivity.
    + rewrite filter_app, NQ, app_nil_r. exact Q.
  - injection R as <- <-. split; [ exact LE | ]. exists es1. auto.
  - injection R as <- <-. split; [ exact LE | ]. exists es1. auto.
Qed.

(** ** More on the port stage *)

(** X6.  A probe of a port that passed [isPortValid], as every port the
    scripts probe has, leaves nothing behind, whatever it finds: the
    servers the process holds, the operator's lines and the files are as
    before.  When [listen] accepts the port it makes one bind attempt and
    resolves to whether that attempt failed; when [listen] refuses it (a
    number that is no integer, true, an array) it throws before any
    attempt. *)
Theorem probe_leaves_nothing_behind :
  forall (port : Value) (w : World) (o : Outcome bool) (w' : World),
    isPortValid port = Ok true ->
    isPortInUse port w = (o, w') ->
    sockets w' = sockets w /\ stdin w' = stdin w /\ files w' = files w
    /\ match listen_port port with
       | Some p => o = Done (busy w p) /\ clock w' = S (clock w)
       | None => (exists e, o = Thrown e) /\ w' = w
       end.
Proof.
  intros port w o w' _ R.
  destruct (isPortInUse_cases port w)
    as [[L [e H]] | [[p [L [B H]]] | [p [L [B H]]]]];
    rewrite H in R; injection R as <- <-; rewrite L.
  - repeat split. exists e. reflexivity.
  - rewrite B. repeat split.
  - rewrite B. repeat split. apply sockets_probed_free. exact B.
Qed.

(** X7.  A falsy port is never a valid one: on undefined, null, false,
    zero, NaN and the empty string [isPortValid] returns false, so the
    test [!port] of the stage rejects nothing that [isPortValid] would
    accept. *)
Theorem falsy_port_is_invalid :
  forall port : Value, ToBoolean port = false -> isPortValid port = Ok false.
Proof.
  intros port F. rewrite isPortValid_ToNumber.
  destruct port as [ | | [ | ] | [ | s | q] | s | items | fields];
    try discriminate F; try reflexivity.
  - cbn in F. apply negb_false_iff in F. apply Qeq_bool_iff in F.
    cbn. f_equal. apply andb_false_iff. left.
    destruct (Qle_bool 1 q) eqn:E; [ | reflexivity ].
    apply Qle_bool_iff in E. rewrite F in E. unfold Qle in E. cbn in E. lia.
  - destruct s; [ reflexivity | discriminate F ].
Qed.

Lemma falsy_port_sample : isPortValid (Str EmptyString) = Ok false.
Proof. apply falsy_port_is_invalid. reflexivity. Defined.

Section MorePortStage.

Variable JSON_parse : string -> Result Value.
Variable number_text : Q -> string.

(** X8.  A file that holds null is read and parsed, but reading the port
    of null throws outside the try block: the stage throws instead of
    logging, after no question and no write, and the script ends there
    without closing the interface. *)
Theorem null_config_throws :
  forall (w : World) (text : string),
    files w configPath = Some text ->
    JSON_parse text = Ok Null ->
    (exists e, checkAndSetPort JSON_parse number_text w = (Thrown e, w))
    /\ forall (dependencies : list string) (w0 : World)
              (declined : list string),
         checkAndInstallDependencies askUser dependencies
           (note CreateInterface w0) = (Done declined, w) ->
         exists e,
           main JSON_parse number_text dependencies w0 = (Thrown e, w).
Proof.
  intros w text F J.
  assert (R : checkAndSetPort JSON_parse number_text w
              = (Thrown (Error
                   "Cannot read properties of null (reading 'port')"), w)).
  { rewrite checkAndSetPort_cases, F, J. reflexivity. }
  split; [ eexists; exact R | ].
  intros dependencies w0 declined D. eexists. unfold main.
  unfold bind at 1. unfold createInterface at 1. unfold emit at 1.
  rewrite (bind_done _ _ _ _ _ D), (bind_thrown _ _ _ _ _ R). reflexivity.
Qed.

(** X9.  A port that passes [isPortValid] and that [listen] does not
    accept (a number that is no integer, true, an array) makes the probe
    throw, and the stage with it: nothing is asked, nothing is written. *)
Theorem unlistenable_port_throws :
  forall (w : World) (text : string) (config port : Value),
    files w configPath = Some text ->
    JSON_parse text = Ok config ->
    get_port config = Ok port ->
    isPortValid port = Ok true ->
    listen_port port = None ->
    exists e, checkAndSetPort JSON_parse number_text w = (Thrown e, w).
Proof.
  intros w text config port F J G V L.
  rewrite checkAndSetPort_cases, F, J, G. cbn zeta.
  rewrite (valid_port_is_truthy _ V), V.
  destruct (isPortInUse_bad port w L) as [e H]. rewrite H.
  exists e. reflexivity.
Qed.

(** X10.  A file that holds no record (a number, a text, a boolean, an
    array) has no port to keep and takes none: the stage never returns
    without an update, and when it returns it reports the update of the
    port the operator entered but has written the value back as it was
    loaded. *)
Theorem non_record_is_written_back :
  forall (w : World) (text : string) (config : Value) (stage : PortStage)
         (w' : World),
    files w configPath = Some text ->
    JSON_parse text = Ok config ->
    is_record config = false ->
    checkAndSetPort JSON_parse number_text w = (Done stage, w') ->
    stage = Updated config
    /\ exists data x events,
         JSON_stringify number_text config 2 = Some data
         /\ files w' configPath = Some data
         /\ trace w' = (trace w ++ events)%list
         /\ In (Written configPath data) events
         /\ In (Log (PortUpdated (Num x))) events.
Proof.
  intros w text config stage w' F J NR R.
  rewrite checkAndSetPort_cases, F, J in R.
  assert (G : get_port config = Ok Undefined
              \/ exists e, get_port config = Raise e).
  { destruct config; try discriminate NR; cbn; eauto. }
  destruct G as [G | [e G]]; rewrite G in R; [ | discriminate R ].
  cbn [ToBoolean] in R. apply promptLoop_updated in R.
  destruct R as [x [p [t [data [before R]]]]].
  destruct R as [S1 [_ [_ [_ [S5 [S6 [_ S8]]]]]]].
  assert (SP : set_port config (Num x) = config).
  { destruct config; try discriminate NR; reflexivity. }
  rewrite SP in *. split; [ exact S1 | ].
  exists data, x.
  exists ([Log (PortInvalidOrInUse Undefined)] ++ before
            ++ [Listening t p; Closed p; Written configPath data;
                Log (PortUpdated (Num x))])%list.
  repeat split; try assumption.
  - rewrite S6. cbn. rewrite <- !app_assoc. reflexivity.
  - apply in_or_app. right. apply in_or_app. right. cbn. auto.
  - apply in_or_app. right. apply in_or_app. right. cbn. auto.
Qed.

Lemma keys_assign (v : Value) (fields : list (string * Value)) :
  keys (assign "port" v fields)
  = match lookup "port" fields with
    | Some _ => keys fields
    | None => (keys fields ++ ["port"])%list
    end.
Proof.
  unfold keys. induction fields as [ | [k old] rest IH]; [ reflexivity | ].
  cbn [assign lookup]. destruct (String.eqb k "port"); [ reflexivity | ].
  cbn [map fst]. rewrite IH. destruct (lookup "port" rest); reflexivity.
Qed.

(** X11.  An update keeps the layout of the record: when the loaded
    record has a port, the new port takes its place among the keys; when it
    has none, the port is added after the last key. *)
Theorem update_keeps_the_key_order :
  forall (w : World) (text : string) (fields fields' : list (string * Value))
         (w' : World),
    files w configPath = Some text ->
    JSON_parse text = Ok (Obj fields) ->
    checkAndSetPort JSON_parse number_text w
    = (Done (Updated (Obj fields')), w') ->
    keys fields'
    = match lookup "port" fields with
      | Some _ => keys fields
      | None => (keys fields ++ ["port"])%list
      end.
Proof.
  intros w text fields fields' w' F J R.
  destruct (checkAndSetPort_outcomes _ _ _ _ _ R)
    as [[reason [O _]]
       | [[text' [config' [port [p [_ [_ [_ [_ [_ [_ [O _]]]]]]]]]]]
         | [[text' [config' [x [p [t [data [before U]]]]]]] | [ND _]]]];
    try discriminate O; try discriminate ND.
  destruct U as [F' [J' [O _]]].
  rewrite F in F'. injection F' as <-. rewrite J in J'. injection J' as <-.
  injection O as ->. apply keys_assign.
Qed.

End MorePortStage.

(** ** The questions of the port stage *)

Section PortQuestions.

Variable JSON_parse : string -> Result Value.
Variable number_text : Q -> string.

(** The loop that returns has read the lines it rejected and the line it
    accepted, asking before each and printing its rejection after each
    rejected one. *)
Lemma promptLoop_dialogue (n : nat) (config : Value) :
  forall w stage w',
    promptLoop number_text n config w = (Done stage, w') ->
    exists rejected accepted events,
      stdin w = (rejected ++ accepted :: stdin w')%list
      /\ trace w' = (trace w ++ events)%list
      /\ filter is_dialogue events = dialogue rejected
      /\ in_port_range (parseInt (answer_of accepted)) = true.
Proof.
  induction n as [ | n IH]; intros w stage w' R; [ discriminate R | ].
  rewrite promptLoop_step in R.
  destruct (stdin w) as [ | line rest] eqn:IN; [ discriminate R | ].
  cbn zeta in R.
  assert (NEXT : forall w2 pre,
             stdin w2 = rest ->
             trace w2 = (trace w ++ Question port_question :: pre)%list ->
             filter is_dialogue pre = [rejection_of line] ->
             promptLoop number_text n config w2 = (Done stage, w') ->
             exists rejected accepted events,
               line :: rest = (rejected ++ accepted :: stdin w')%list
               /\ trace w' = (trace w ++ events)%list
               /\ filter is_dialogue events = dialogue rejected
               /\ in_port_range (parseInt (answer_of accepted)) = true).
  { intros w2 pre I2 T2 D2 R2. apply IH in R2.
    destruct R2 as [rejected [accepted [es [I [T [D V]]]]]].
    exists (line :: rejected), accepted.
    exists (Question port_question :: pre ++ es)%list.
    split; [ cbn [app]; rewrite <- I, I2; reflexivity | ].
    split; [ rewrite T, T2, <- app_assoc; reflexivity | ].
    split; [ | exact V ].
    cbn [filter is_dialogue is_question orb]. rewrite filter_app, D2, D.
    reflexivity. }
  destruct (in_port_range (parseInt (answer_of line))) eqn:V.
  - destruct (isPortInUse_cases (Num (parseInt (answer_of line)))
                (answered port_question rest w))
      as [[_ [e H]] | [[p [L [B H]]] | [p [L [B H]]]]];
      rewrite H in R; [ discriminate R | | ].
    + refine (NEXT _ [BindFailed (clock w) p; Log PortInUse] _ _ _ R);
        [ reflexivity | cbn; rewrite <- !app_assoc; reflexivity | ].
      unfold rejection_of. rewrite V. reflexivity.
    + destruct (JSON_stringify _ _ 2) as [text | ]; [ | discriminate R ].
      destruct (write_error _ configPath); [ discriminate R | ].
      injection R as <- <-.
      exists [], line.
      exists [Question port_question; Listening (clock w) p; Closed p;
              Written configPath text;
              Log (PortUpdated (Num (parseInt (answer_of line))))].
      repeat split; [ | exact V ]. cbn. rewrite <- !app_assoc. reflexivity.
  - refine (NEXT _ [Log InvalidPort] _ _ _ R);
      [ reflexivity | cbn; rewrite <- !app_assoc; reflexivity | ].
    unfold rejection_of. rewrite V. reflexivity.
Qed.

(** X12.  The dialogue of a stage that ends with an update.  The
    operator's lines are the lines the stage rejected, the line it
    accepted, and the lines it left unread.  The questions and the
    rejection notices of the stage are, in this order: for each rejected
    line the port question followed by the notice for that line (invalid
    port when the parsed answer fails the validator, port in use
    otherwise), then the port question once more, with no notice after it.
    No other question is asked, and the accepted answer passes the
    validator. *)
Theorem one_question_per_candidate :
  forall (w : World) (config' : Value) (w' : World),
    checkAndSetPort JSON_parse number_text w = (Done (Updated config'), w') ->
    exists rejected accepted events,
      stdin w = (rejected ++ accepted :: stdin w')%list
      /\ trace w' = (trace w ++ events)%list
      /\ filter is_dialogue events = dialogue rejected
      /\ in_port_range (parseInt (answer_of accepted)) = true.
Proof.
  intros w config' w' R. rewrite checkAndSetPort_cases in R.
  destruct (files w configPath) as [text | ]; [ | discriminate R ].
  destruct (JSON_parse text) as [config | e]; [ | discriminate R ].
  destruct (get_port config) as [port | e]; [ | discriminate R ].
  cbn zeta in R.
  assert (PROMPT : forall w1 pre,
             stdin w1 = stdin w ->
             trace w1 = (trace w ++ pre)%list ->
             filter is_dialogue pre = [] ->
             promptLoop number_text (S (List.length (stdin w1))) config
               (note (Log (PortInvalidOrInUse port)) w1)
             = (Done (Updated config'), w') ->
             exists rejected accepted events,
               stdin w = (rejected ++ accepted :: stdin w')%list
               /\ trace w' = (trace w ++ events)%list
               /\ filter is_dialogue events = dialogue rejected
               /\ in_port_range (parseInt (answer_of accepted)) = true).
  { intros w1 pre I1 T1 D1 R1. apply promptLoop_dialogue in R1.
    cbn [stdin note with_trace] in R1. rewrite I1 in R1.
    destruct R1 as [rejected [accepted [es [I [T [D V]]]]]].
    exists rejected, accepted.
    exists (pre ++ Log (PortInvalidOrInUse port) :: es)%list.
    split; [ exact I | ].
    split; [ rewrite T; cbn; rewrite T1, <- !app_assoc; reflexivity | ].
    split; [ | exact V ].
    rewrite filter_app, D1. cbn. exact D. }
  destruct (ToBoolean port).
  2:{ apply (PROMPT w []); auto. symmetry. apply app_nil_r. }
  destruct (isPortValid port) as [[ | ] | e]; [ | | discriminate R ].
  2:{ apply (PROMPT w []); auto. symmetry. apply app_nil_r. }
  destruct (isPortInUse_cases port w)
    as [[_ [e H]] | [[p [L [B H]]] | [p [L [B H]]]]];
    rewrite H in R; try discriminate R.
  apply (PROMPT (probed_busy p w) [BindFailed (clock w) p]); auto.
Qed.

End PortQuestions.

(** ** Progress of the port stage *)

Lemma round_double_integer_port (z : Z) :
  1 <= z <= 65535 -> round_double (inject_Z z) = of_Z z.
Proof.
  intros R. rewrite <- (round_double_port z R). f_equal.
  unfold Qmult, inject_Z. cbn [Qnum Qden Pos.mul]. rewrite Z.mul_1_r.
  reflexivity.
Qed.

Lemma no_digit_no_value (c : ascii) :
  is_decimal_digit c = false -> digit_in 10 c = None.
Proof.
  unfold is_decimal_digit, digit_in. cbn zeta. intros H. rewrite H.
  destruct ((97 <=? code c) && (code c <=? 122)) eqn:L.
  - apply andb_true_iff in L. destruct L as [L1 L2]. apply Z.leb_le in L1.
    replace (code c - 87 <? 10) with false
      by (symmetry; apply Z.ltb_ge; lia).
    reflexivity.
  - destruct ((65 <=? code c) && (code c <=? 90)) eqn:U; [ | reflexivity ].
    apply andb_true_iff in U. destruct U as [U1 U2]. apply Z.leb_le in U1.
    replace (code c - 55 <? 10) with false
      by (symmetry; apply Z.ltb_ge; lia).
    reflexivity.
Qed.

(** The digits read from a numeral followed by something that is no
    digit are the digits of the numeral. *)
Lemma digits_prefix_app (s junk : string) :
  all_digits s = true -> no_digit_ahead junk = true ->
  digits_prefix 10 (s ++ junk) = (fst (digits_prefix 10 s), junk).
Proof.
  intros D J. induction s as [ | c r IH].
  - cbn [append digits_prefix fst]. destruct junk as [ | c r];
      [ reflexivity | ].
    cbn [no_digit_ahead] in J. apply negb_true_iff in J.
    cbn [digits_prefix]. rewrite (no_digit_no_value c J). reflexivity.
  - cbn [all_digits] in D. apply andb_true_iff in D. destruct D as [Hc Hr].
    cbn [append digits_prefix]. rewrite (digit_in_decimal c Hc), (IH Hr).
    destruct (digits_prefix 10 r) as [ds rest]. reflexivity.
Qed.

(** [parseInt] on a numeral of a port followed by anything that is no
    digit. *)
Lemma parseInt_leading_numeral (s junk : string) :
  decimal_numeral s = true -> no_digit_ahead junk = true ->
  1 <= decimal_value s <= 65535 ->
  parseInt (s ++ junk) = of_Z (decimal_value s).
Proof.
  intros N J R. unfold decimal_numeral in N. apply andb_true_iff in N.
  destruct N as [NE D]. destruct s as [ | c r]; [ discriminate NE | ].
  pose proof D as D'. cbn [all_digits] in D'. apply andb_true_iff in D'.
  destruct D' as [Hc Hr]. pose proof (digit_code c Hc) as Cc.
  unfold parseInt.
  assert (T : trimStart (String c r ++ junk) = String c r ++ junk).
  { cbn [append trimStart]. rewrite (digit_is_not_ws c Hc). reflexivity. }
  rewrite T.
  assert (SP : sign_prefix (String c r ++ junk)
               = (false, String c r ++ junk)).
  { cbn [append]. unfold sign_prefix. z_false. reflexivity. }
  rewrite SP, (digits_prefix_app _ _ D J). unfold decimal_value in *.
  destruct (digits_prefix 10 (String c r)) as [ds rest] eqn:DP.
  cbn [fst] in *. destruct ds as [ | d ds].
  { cbn [digits_prefix] in DP. rewrite (digit_in_decimal c Hc) in DP.
    destruct (digits_prefix 10 r); discriminate DP. }
  cbn [signed]. apply round_double_integer_port. exact R.
Qed.

Lemma listen_port_of_Z (p : Z) :
  1 <= p <= 65535 -> listen_port (Num (of_Z p)) = Some p.
Proof.
  intros R. unfold listen_port, of_Z, inject_Z. cbn [Qnum Qden].
  rewrite Z.mod_1_r, Z.div_1_r. cbn [Z.eqb andb].
  replace (0 <=? p) with true by (symmetry; apply Z.leb_le; lia).
  replace (p <=? 65535) with true by (symmetry; apply Z.leb_le; lia).
  reflexivity.
Qed.

Section PortProgress.

Variable JSON_parse : string -> Result Value.
Variable number_text : Q -> string.

(** A configuration whose port could be read is written as text, with
    any port. *)
Lemma stringify_defined (config port newPort : Value) :
  get_port config = Ok port ->
  exists text,
    JSON_stringify number_text (set_port config newPort) 2 = Some text.
Proof.
  destruct config as [ | | b | n | s | items | fields]; intros G;
    try discriminate G; unfold JSON_stringify; cbn [set_port serialize];
    try (eexists; reflexivity).
  destruct n as [ | sg | q]; eexists; reflexivity.
Qed.

(** The loop passes over the answers the validator rejects and stops at
    the first answer that names a free port. *)
Lemma promptLoop_reaches (config port : Value) (p : Z) (line : string)
  (rest : list string) :
  get_port config = Ok port ->
  parseInt (answer_of line) = of_Z p ->
  1 <= p <= 65535 ->
  forall (rejected : list string) (n : nat) (w : World),
    Forall rejected_answer rejected ->
    stdin w = (rejected ++ line :: rest)%list ->
    (List.length rejected < n)%nat ->
    free w p ->
    write_error w configPath = None ->
    exists text w',
      promptLoop number_text n config w
      = (Done (Updated (set_port config (Num (of_Z p)))), w')
      /\ JSON_stringify number_text (set_port config (Num (of_Z p))) 2
         = Some text
      /\ stdin w' = rest
      /\ files w' configPath = Some text
      /\ sockets w' = sockets w.
Proof.
  intros G PI R rejected.
  induction rejected as [ | bad rejected IH]; intros n w REJ IN LT FREE WR;
    (destruct n as [ | n]; [ cbn in LT; lia | ]);
    rewrite promptLoop_step, IN; cbn [app]; cbn zeta.
  - rewrite PI, in_port_range_of_Z.
    replace ((1 <=? p) && (p <=? 65535)) with true
      by (symmetry; apply andb_true_iff; split; apply Z.leb_le; lia).
    rewrite (isPortInUse_free _ p) by (try apply listen_port_of_Z; auto).
    destruct (stringify_defined config port (Num (of_Z p)) G) as [text S].
    rewrite S. cbn [write_error probed_free answered note with_trace
                      with_files with_sockets with_clock with_stdin].
    rewrite WR. exists text. eexists. split; [ reflexivity | ].
    split; [ reflexivity | ]. split; [ reflexivity | ]. split.
    + reflexivity.
    + cbn. apply (sockets_probed_free p w). exact FREE.
  - inversion REJ as [ | ? ? BAD REJ']; subst. red in BAD. rewrite BAD.
    destruct (IH n (note (Log InvalidPort)
                      (answered port_question
                         (rejected ++ line :: rest)%list w)) REJ')
      as [text [w' [RUN [S [I [F K]]]]]];
      [ reflexivity | cbn in LT; lia | exact FREE | exact WR | ].
    exists text, w'. rewrite RUN. repeat split; assumption.
Qed.

(** X13.  The stage makes progress.  When the port of the loaded
    configuration is not valid, the operator's next lines are answers the
    validator rejects, and the line after them starts, once trimmed and
    lower-cased, with the decimal numeral of a port that is free (whatever
    follows the numeral), and the file can be written, then the stage
    returns with that port, as a number, in the configuration; the file
    holds the text of that configuration, the lines after the accepted
    one are left to be read, and no server is left listening. *)
Theorem first_free_port_is_accepted :
  forall (w : World) (text : string) (config port : Value)
         (rejected : list string) (line s junk : string)
         (rest : list string),
    files w configPath = Some text ->
    JSON_parse text = Ok config ->
    get_port config = Ok port ->
    isPortValid port = Ok false ->
    stdin w = (rejected ++ line :: rest)%list ->
    Forall rejected_answer rejected ->
    answer_of line = (s ++ junk)%string ->
    decimal_numeral s = true ->
    no_digit_ahead junk = true ->
    1 <= decimal_value s <= 65535 ->
    free w (decimal_value s) ->
    write_error w configPath = None ->
    let config' := set_port config (Num (of_Z (decimal_value s))) in
    exists text' w',
      checkAndSetPort JSON_parse number_text w = (Done (Updated config'), w')
      /\ JSON_stringify number_text config' 2 = Some text'
      /\ stdin w' = rest
      /\ files w' configPath = Some text'
      /\ sockets w' = sockets w.
Proof.
  intros w text config port rejected line s junk rest F J G V IN REJ A N K R
    FREE WR config'.
  assert (PI : parseInt (answer_of line) = of_Z (decimal_value s)).
  { rewrite A. apply parseInt_leading_numeral; assumption. }
  rewrite checkAndSetPort_cases, F, J, G. cbn zeta. rewrite V.
  destruct (promptLoop_reaches config port (decimal_value s) line rest G PI R
              rejected (S (List.length (stdin w)))
              (note (Log (PortInvalidOrInUse port)) w) REJ IN)
    as [text' [w' [RUN H]]];
    [ rewrite IN, length_app; cbn; lia | exact FREE | exact WR | ].
  exists text', w'. cbn [stdin note with_trace] in RUN.
  destruct (ToBoolean port); rewrite RUN; split; try reflexivity; exact H.
Qed.

End PortProgress.

(** ** What the dependency stage leaves alone *)

Section DependencyFrame.

Variable names : list string.

Lemma undisturbed_refl w : undisturbed names w w.
Proof. repeat split. apply extends_refl. Qed.

Lemma undisturbed_trans w1 w2 w3 :
  undisturbed names w1 w2 -> undisturbed names w2 w3 ->
  undisturbed names w1 w3.
Proof.
  intros [S1 [K1 E1]] [S2 [K2 E2]].
  repeat split; try congruence. apply (extends_trans _ _ _ _ E1 E2).
Qed.

Lemma undisturbed_note e w :
  dependency_event names e = true -> undisturbed names w (note e w).
Proof.
  intros H. repeat split. exists [e]. split; [ reflexivity | ].
  cbn. rewrite H. reflexivity.
Qed.

Lemma leaves_ret {A} (a : A) : leaves_system names (ret a).
Proof. intros w o w' R. injection R as <- <-. apply undisturbed_refl. Qed.

Lemma leaves_bind {A B} (m : M A) (k : A -> M B) :
  leaves_system names m -> (forall a, leaves_system names (k a)) ->
  leaves_system names (bind m k).
Proof.
  intros Hm Hk w o w' R. unfold bind in R.
  destruct (m w) as [[a | e | ] w1] eqn:E.
  - apply (undisturbed_trans _ w1); [ apply (Hm _ _ _ E) | ].
    apply (Hk a _ _ _ R).
  - injection R as <- <-. apply (Hm _ _ _ E).
  - injection R as <- <-. apply (Hm _ _ _ E).
Qed.

Lemma leaves_try_catch {A} (body : M A) (handler : Exn -> M A) :
  leaves_system names body -> (forall e, leaves_system names (handler e)) ->
  leaves_system names (try_catch body handler).
Proof.
  intros Hb Hh w o w' R. unfold try_catch in R.
  destruct (body w) as [[a | e | ] w1] eqn:E.
  - injection R as <- <-. apply (Hb _ _ _ E).
  - apply (undisturbed_trans _ w1); [ apply (Hb _ _ _ E) | ].
    apply (Hh e _ _ _ R).
  - injection R as <- <-. apply (Hb _ _ _ E).
Qed.

Lemma leaves_emit e :
  dependency_event names e = true -> leaves_system names (emit e).
Proof.
  intros H w o w' R. injection R as <- <-. apply undisturbed_note. exact H.
Qed.

Lemma leaves_rl_question q : leaves_system names (rl_question q).
Proof.
  intros w o w' R. unfold rl_question in R.
  destruct (stdin w); injection R as <- <-;
    (repeat split; exists [Question q]; split; reflexivity).
Qed.

(** The install command of a name of the list. *)
Lemma leaves_execSync dep :
  In dep names -> leaves_system names (execSync (install_command dep)).
Proof.
  intros H w o w' R. unfold execSync in R.
  assert (E : dependency_event names (Exec (install_command dep)) = true).
  { cbn [dependency_event]. apply existsb_exists.
    exists (install_command dep). split; [ | apply String.eqb_refl ].
    apply in_map. exact H. }
  destruct (npm w (install_command dep)); injection R as <- <-;
    (repeat split; exists [Exec (install_command dep)];
     split; [ reflexivity | cbn [forallb]; rewrite E; reflexivity ]).
Qed.

Lemma leaves_forEach {A} (l : list A) (f : A -> M unit) :
  (forall a, leaves_system names (f a)) -> leaves_system names (forEach l f).
Proof.
  intros F. induction l as [ | a rest IH]; cbn [forEach].
  - apply leaves_ret.
  - apply leaves_bind; [ apply F | ]. intros _. exact IH.
Qed.

Lemma leaves_askUser q : leaves_system names (askUser q).
Proof.
  unfold askUser. apply leaves_bind; [ apply leaves_rl_question | ].
  intros answer. apply leaves_ret.
Qed.

Lemma leaves_legacy_askUser q : leaves_system names (Legacy.askUser q).
Proof.
  unfold Legacy.askUser, createInterface, rl_close.
  apply leaves_bind; [ apply leaves_emit; reflexivity | ]. intros _.
  apply leaves_bind; [ apply leaves_rl_question | ]. intros answer.
  apply leaves_bind; [ apply leaves_emit; reflexivity | ]. intros _.
  apply leaves_ret.
Qed.

Variable ask : string -> M string.
Hypothesis ask_leaves : forall q, leaves_system names (ask q).

Lemma leaves_installDependency dep :
  In dep names -> leaves_system names (installDependency ask dep).
Proof.
  intros H. unfold installDependency, console_log, console_error.
  apply leaves_bind; [ apply ask_leaves | ]. intros answer.
  destruct (String.eqb answer "yes"); [ | apply leaves_ret ].
  apply leaves_bind; [ | intros _; apply leaves_ret ].
  apply leaves_try_catch.
  - apply leaves_bind; [ apply leaves_emit; reflexivity | ]. intros _.
    apply leaves_bind; [ apply (leaves_execSync dep H) | ]. intros _.
    apply leaves_emit. reflexivity.
  - intros e. apply leaves_emit. reflexivity.
Qed.

Lemma leaves_installMissing (missing : list string) :
  incl missing names ->
  forall declined, leaves_system names (installMissing ask missing declined).
Proof.
  induction missing as [ | dep rest IH]; intros I declined;
    cbn [installMissing]; [ apply leaves_ret | ].
  apply leaves_bind.
  - apply leaves_installDependency. apply I. left. reflexivity.
  - intros d. apply IH. intros x H. apply I. right. exact H.
Qed.

(** The loop and the summary that follows it. *)
Lemma leaves_install_and_report (missing : list string) :
  incl missing names ->
  leaves_system names
    (declinedDependencies <- installMissing ask missing [] ;;
     (if (0 <? List.length declinedDependencies)%nat then
        console_log NotInstalledHeader ;;
        console_log (DeclinedList declinedDependencies) ;;
        console_log ManualHeader ;;
        forEach declinedDependencies
          (fun dep => console_log (ManualCommand dep))
      else console_log AllInstalled) ;;
     ret declinedDependencies).
Proof.
  intros I. unfold console_log.
  apply leaves_bind; [ apply leaves_installMissing; exact I | ].
  intros declined. apply leaves_bind; [ | intros _; apply leaves_ret ].
  destruct (0 <? List.length declined)%nat.
  - repeat (apply leaves_bind;
            [ apply leaves_emit; reflexivity | intros _ ]).
    apply leaves_forEach. intros dep. apply leaves_emit. reflexivity.
  - apply leaves_emit. reflexivity.
Qed.

End DependencyFrame.

Lemma leaves_checkAndInstallDependencies (ask : string -> M string)
      (dependencies : list string) w o w' :
  (forall q, leaves_system (missing_in w dependencies) (ask q)) ->
  checkAndInstallDependencies ask dependencies w = (o, w') ->
  undisturbed (missing_in w dependencies) w w'.
Proof.
  intros A R. unfold checkAndInstallDependencies in R.
  rewrite (bind_done _ _ _ _ _ (missing_dependencies dependencies w)) in R.
  apply (leaves_install_and_report (missing_in w dependencies) ask A
           (missing_in w dependencies) (incl_refl _) w o w' R).
Qed.

(** X14.  The dependency stage of either script, however it ends (also
    when it waits for an answer that never comes): the script itself
    writes no file and makes no bind attempt, and the only commands it
    runs are install commands of names of the list that did not resolve
    when the stage began.  All it does besides is ask, print and, in the
    earlier script, create and close interfaces.  (What an install command
    does to the file system is the command's business, and is not
    stated.) *)
Theorem dependency_stage_leaves_the_system :
  forall (dependencies : list string) (w : World)
         (o : Outcome (list string)) (w' : World),
    checkAndInstallDependencies askUser dependencies w = (o, w')
    \/ Legacy.main dependencies w = (o, w') ->
    sockets w' = sockets w /\ clock w' = clock w
    /\ exists events,
         trace w' = (trace w ++ events)%list
         /\ forallb (dependency_event (missing_in w dependencies)) events
            = true.
Proof.
  intros dependencies w o w' [R | R].
  - apply (leaves_checkAndInstallDependencies askUser dependencies w o w'
             (leaves_askUser _) R).
  - apply (leaves_checkAndInstallDependencies Legacy.askUser dependencies
             w o w' (leaves_legacy_askUser _) R).
Qed.

(** ** Sample runs of the two stages *)

(** Package a is installed, b and c are not; the operator accepts b and
    declines c, and has typed one more line. *)
Lemma dependency_stage_answered_sample :
  exists w' events,
    checkAndInstallDependencies askUser ["a"; "b"; "c"]
      (sample_world_with_a ["yes"; "no"; "later"])
    = (Done ["c"], w')
    /\ stdin w' = ["later"]
    /\ trace w'
       = (trace (sample_world_with_a ["yes"; "no"; "later"]) ++ events)%list
    /\ filter is_question events
       = [Question (install_question "b"); Question (install_question "c")]
    /\ filter is_exec events = [Exec (install_command "b")].
Proof.
  apply (dependency_stage_answered askUser askUser_asks_once
           ["a"; "b"; "c"] (sample_world_with_a ["yes"; "no"; "later"])).
  cbn. lia.
Defined.

(** With package a installed and a the only name, nothing is asked. *)
Lemma nothing_missing_sample :
  checkAndInstallDependencies Legacy.askUser ["a"]
    (sample_world_with_a ["yes"])
  = (Done [], note (Log AllInstalled) (sample_world_with_a ["yes"])).
Proof.
  apply (nothing_missing_nothing_asked Legacy.askUser ["a"]
           (sample_world_with_a ["yes"])).
  reflexivity.
Defined.

(** Two names are missing and the operator has one line: the stage
    waits. *)
Lemma dependency_stage_waits_sample :
  fst (checkAndInstallDependencies Legacy.askUser ["b"; "c"]
         (sample_world_with_a ["no"]))
  = Blocked.
Proof.
  apply (dependency_stage_returns_or_waits Legacy.askUser
           legacy_askUser_asks_once ["b"; "c"] (sample_world_with_a ["no"])).
Defined.

(** In that run the earlier script has closed one interface and left one
    open. *)
Lemma earlier_script_interfaces_sample :
  exists events,
    trace (snd (Legacy.main ["b"; "c"] (sample_world_with_a ["no"])))
    = (trace (sample_world_with_a ["no"]) ++ events)%list
    /\ session_events events
       = [CreateInterface; CloseInterface; CreateInterface]
    /\ List.length (filter is_question events) = 2%nat.
Proof.
  apply (proj2 (earlier_script_interface_per_question ["b"; "c"]
                  (sample_world_with_a ["no"]) Blocked
                  (snd (Legacy.main ["b"; "c"] (sample_world_with_a ["no"])))
                  eq_refl)).
Defined.

(** A probe of the free port 3000. *)
Lemma probe_sample :
  sockets (snd (isPortInUse (Num (of_Z 3000))
                  (sample_world [] (fun _ => None))))
  = []
  /\ fst (isPortInUse (Num (of_Z 3000)) (sample_world [] (fun _ => None)))
     = Done false.
Proof.
  destruct (probe_leaves_nothing_behind (Num (of_Z 3000))
              (sample_world [] (fun _ => None))
              (fst (isPortInUse (Num (of_Z 3000))
                      (sample_world [] (fun _ => None))))
              (snd (isPortInUse (Num (of_Z 3000))
                      (sample_world [] (fun _ => None))))
              eq_refl eq_refl)
    as [S [_ [_ L]]].
  split; [ exact S | exact (proj1 L) ].
Defined.

(** A file that holds null. *)
Lemma null_config_sample :
  exists e,
    checkAndSetPort (sample_parse "config" Null) sample_number_text
      (sample_world ["3000"] (only_config "config"))
    = (Thrown e, sample_world ["3000"] (only_config "config")).
Proof.
  apply (proj1 (null_config_throws (sample_parse "config" Null)
                  sample_number_text
                  (sample_world ["3000"] (only_config "config")) "config"
                  eq_refl eq_refl)).
Defined.

(** A file whose port is 1.5. *)
Lemma port_one_and_a_half_sample :
  exists e,
    checkAndSetPort
      (sample_parse "config" (Obj [("port", Num (Finite (3 # 2)))]))
      sample_number_text
      (sample_world ["3000"] (only_config "config"))
    = (Thrown e, sample_world ["3000"] (only_config "config")).
Proof.
  apply (unlistenable_port_throws
           (sample_parse "config" (Obj [("port", Num (Finite (3 # 2)))]))
           sample_number_text
           (sample_world ["3000"] (only_config "config")) "config"
           (Obj [("port", Num (Finite (3 # 2)))]) (Num (Finite (3 # 2))));
    reflexivity.
Defined.

(** A file that holds the text x, the operator entering 3000. *)
Lemma text_config_sample :
  exists data x events,
    JSON_stringify sample_number_text (Str "x") 2 = Some data
    /\ files (snd (sample_stage (Str "x") ["3000"])) configPath = Some data
    /\ trace (snd (sample_stage (Str "x") ["3000"]))
       = (trace (sample_world ["3000"] (only_config "config")) ++ events)%list
    /\ In (Written configPath data) events
    /\ In (Log (PortUpdated (Num x))) events.
Proof.
  apply (non_record_is_written_back
           (sample_parse "config" (Str "x")) sample_number_text
           (sample_world ["3000"] (only_config "config")) "config"
           (Str "x") (Updated (Str "x"))
           (snd (sample_stage (Str "x") ["3000"])));
    [ reflexivity | reflexivity | reflexivity | vm_compute; reflexivity ].
Defined.

(** A record without a port, the operator entering 3000: the port comes
    last. *)
Lemma port_added_last_sample :
  keys [("otherField", Str "x"); ("port", Num (of_Z 3000))]
  = ["otherField"; "port"].
Proof.
  apply (update_keeps_the_key_order
           (sample_parse "config" (Obj [("otherField", Str "x")]))
           sample_number_text
           (sample_world ["3000"] (only_config "config")) "config"
           [("otherField", Str "x")]
           [("otherField", Str "x"); ("port", Num (of_Z 3000))]
           (snd (sample_stage (Obj [("otherField", Str "x")]) ["3000"])));
    [ reflexivity | reflexivity | vm_compute; reflexivity ].
Defined.

(** The scenario of the specification: 99999 is rejected as invalid, 3000
    is accepted, and nothing is left. *)
Lemma two_candidates_sample :
  exists rejected accepted events,
    ["99999"; "3000"]
    = (rejected ++ accepted
         :: stdin (snd (sample_stage sample_config ["99999"; "3000"])))%list
    /\ trace (snd (sample_stage sample_config ["99999"; "3000"]))
       = (trace (sample_world ["99999"; "3000"] (only_config "config"))
            ++ events)%list
    /\ filter is_dialogue events = dialogue rejected
    /\ in_port_range (parseInt (answer_of accepted)) = true.
Proof.
  apply (one_question_per_candidate
           (sample_parse "config" sample_config) sample_number_text
           (sample_world ["99999"; "3000"] (only_config "config"))
           sample_config_with_port
           (snd (sample_stage sample_config ["99999"; "3000"]))).
  vm_compute. reflexivity.
Defined.

(** The dialogue of that scenario. *)
Example dialogue_99999_then_3000 :
  filter is_dialogue
    (trace (snd (sample_stage sample_config ["99999"; "3000"])))
  = [Question port_question; Log InvalidPort; Question port_question]
  /\ dialogue ["99999"]
     = [Question port_question; Log InvalidPort; Question port_question].
Proof. split; vm_compute; reflexivity. Qed.

(** The operator types letters, then 3000 followed by letters, between
    blanks: port 3000 is accepted and the third line is left. *)
Lemma first_free_port_sample :
  exists text' w',
    sample_stage sample_config ["abc"; " 3000xyz "; "later"]
    = (Done (Updated sample_config_with_port), w')
    /\ JSON_stringify sample_number_text sample_config_with_port 2
       = Some text'
    /\ stdin w' = ["later"]
    /\ files w' configPath = Some text'
    /\ sockets w' = [].
Proof.
  apply (first_free_port_is_accepted
           (sample_parse "config" sample_config) sample_number_text
           (sample_world ["abc"; " 3000xyz "; "later"] (only_config "config"))
           "config" sample_config (Num (of_Z 80000))
           ["abc"] " 3000xyz " "3000" "xyz" ["later"]);
    try reflexivity.
  - repeat constructor.
  - unfold decimal_value. cbn. lia.
Defined.

(** The operator says yes to express and the install succeeds: one
    command was run, the install command of express, and no port was
    tried. *)
Lemma dependency_stage_frame_sample :
  sockets (snd (checkAndInstallDependencies askUser requiredDeps
                  (sample_world ["yes"] (fun _ => None))))
  = []
  /\ exists events,
       trace (snd (checkAndInstallDependencies askUser requiredDeps
                     (sample_world ["yes"] (fun _ => None))))
       = (trace (sample_world ["yes"] (fun _ => None)) ++ events)%list
       /\ forallb (dependency_event ["express"]) events = true.
Proof.
  destruct (dependency_stage_leaves_the_system requiredDeps
              (sample_world ["yes"] (fun _ => None))
              (fst (checkAndInstallDependencies askUser requiredDeps
                      (sample_world ["yes"] (fun _ => None))))
              (snd (checkAndInstallDependencies askUser requiredDeps
                      (sample_world ["yes"] (fun _ => None))))
              (or_introl eq_refl))
    as [S [_ E]].
  split; [ exact S | exact E ].
Defined.

(** In that run the command was run and reported as a success. *)
Example express_is_installed :
  filter is_exec
    (trace (snd (checkAndInstallDependencies askUser requiredDeps
                   (sample_world ["yes"] (fun _ => None)))))
  = [Exec (install_command "express")]
  /\ In (Log (Installed "express"))
       (trace (snd (checkAndInstallDependencies askUser requiredDeps
                      (sample_world ["yes"] (fun _ => None))))).
Proof. split; [ reflexivity | cbn; auto 10 ]. Qed.
